(** * JARVIS core: context store, capability registry, reminder scheduler

  A shallow embedding of the stateful core of the assistant:
  - [backend/context_manager.py]   (module [Context])
  - [backend/tools/remotetools.py] (module [Remote])
  - [backend/tools/localtools.py]  (module [Reminders])

  Python objects are records, mutation is explicit state passing, the
  backing files and the remote server are part of the state that each
  operation receives and returns, and exceptions are values of [outcome].
  Console output ([print]) has no effect on any state and is left out. *)

From Stdlib Require Import ZArith List String Ascii Bool Lia.
From Stdlib Require Import Numbers.DecimalString.
From stdpp Require Import base list gmap strings.

Set Warnings "-register-all".
Local Open Scope Z_scope.

(** ** Python values and control flow used by the sources *)
Module Py.

(** The exception classes the sources distinguish in their handlers.
    [ConnectTimeout] is the [requests] class that inherits from both
    [ConnectionError] and [Timeout]; every class below is a subclass of
    [Exception]. *)
Inductive exn :=
| Timeout
| ConnectionError
| ConnectTimeout
| JSONDecodeError
| KeyError (k : string)
| TypeError
| AttributeError
| OtherException (msg : string).

Definition is_Timeout (e : exn) : bool :=
  match e with Timeout | ConnectTimeout => true | _ => false end.

Definition is_ConnectionError (e : exn) : bool :=
  match e with ConnectionError | ConnectTimeout => true | _ => false end.

Inductive outcome (A : Type) :=
| Return (a : A)
| Raise (e : exn).
Arguments Return {A} a.
Arguments Raise {A} e.

(** *** Strings.  A [string] is the sequence of characters of a Python
    [str]; [lower] and [isspace] are Python's on the ASCII range. *)

Definition nl : string := String (ascii_of_nat 10) EmptyString.

Definition lower_char (c : ascii) : ascii :=
  let n := nat_of_ascii c in
  if ((65 <=? n) && (n <=? 90))%nat then ascii_of_nat (n + 32) else c.

Fixpoint lower (s : string) : string :=
  match s with
  | EmptyString => EmptyString
  | String c s' => String (lower_char c) (lower s')
  end.

(** [str.isspace] on one character: TAB..CR, FS..US and SPACE. *)
Definition isspace (c : ascii) : bool :=
  let n := nat_of_ascii c in
  (((9 <=? n) && (n <=? 13)) || ((28 <=? n) && (n <=? 32)))%nat.

(** [s.split()]: maximal runs of non-whitespace characters. [cur] is the
    run being read. *)
Fixpoint split_from (cur : string) (s : string) : list string :=
  match s with
  | EmptyString => if String.eqb cur "" then [] else [cur]
  | String c s' =>
      if isspace c
      then (if String.eqb cur "" then split_from "" s'
            else cur :: split_from "" s')
      else split_from (cur +:+ String c "") s'
  end.

Definition split (s : string) : list string := split_from "" s.

(** [w in s] for two strings: [w] occurs in [s] as a substring. *)
Fixpoint contains (w s : string) : bool :=
  String.prefix w s ||
  match s with
  | EmptyString => false
  | String _ s' => contains w s'
  end.

Fixpoint lstrip (s : string) : string :=
  match s with
  | EmptyString => EmptyString
  | String c s' => if isspace c then lstrip s' else s
  end.

Fixpoint rstrip (s : string) : string :=
  match s with
  | EmptyString => EmptyString
  | String c s' =>
      match rstrip s' with
      | EmptyString => if isspace c then EmptyString else String c EmptyString
      | r => String c r
      end
  end.

(** [s.strip()] *)
Definition strip (s : string) : string := rstrip (lstrip s).

(** [str(n)] for an [int]. *)
Definition str_of_int (n : Z) : string := NilEmpty.string_of_int (Z.to_int n).

(** [s[:n]] for a literal [n >= 0]. *)
Definition str_upto (n : nat) (s : string) : string := substring 0 n s.

(** *** Lists *)

(** [l[start:]] with Python's treatment of a negative or too large
    [start].  [l[-n:]] is [slice_from (- n) l]; for [n = 0] that is
    [l[0:]], the whole list. *)
Definition slice_from {A} (start : Z) (l : list A) : list A :=
  let len := Z.of_nat (length l) in
  let i := if start <? 0 then Z.max (len + start) 0 else Z.min start len in
  drop (Z.to_nat i) l.

(** *** Decoded JSON.  Numbers are the integers; a [JDict] lists its
    items in insertion order, keys unique. *)
Inductive json :=
| JNull
| JBool (b : bool)
| JInt (z : Z)
| JStr (s : string)
| JList (l : list json)
| JDict (d : list (string * json)).

(** Truth value of a decoded JSON value in an [if]. *)
Definition truthy (j : json) : bool :=
  match j with
  | JNull => false
  | JBool b => b
  | JInt z => negb (z =? 0)
  | JStr s => negb (String.eqb s "")
  | JList l => match l with [] => false | _ => true end
  | JDict d => match d with [] => false | _ => true end
  end.

Fixpoint assoc {A} (k : string) (d : list (string * A)) : option A :=
  match d with
  | [] => None
  | (k', v) :: d' => if String.eqb k k' then Some v else assoc k d'
  end.

(** [j[k]] for a string [k]: only a dict can be indexed by a string. *)
Definition getitem (j : json) (k : string) : outcome json :=
  match j with
  | JDict d => match assoc k d with Some v => Return v | None => Raise (KeyError k) end
  | _ => Raise TypeError
  end.

(** [j.get(k, dflt)]: only a dict has the method. *)
Definition get (j : json) (k : string) (dflt : json) : outcome json :=
  match j with
  | JDict d => Return (default dflt (assoc k d))
  | _ => Raise AttributeError
  end.

End Py.
Export Py.

(** ** backend/context_manager.py *)
Module Context.

Record ConversationTurn := {
  timestamp : string;
  user_input : string;
  assistant_response : string;
  session_id : string;
  context_type : string
}.

Record UserProfile := {
  name : string;
  preferences : list (string * json);
  frequently_used_commands : list string;
  last_interaction : option string
}.

(** [UserProfile()] after [__post_init__]. *)
Definition UserProfile_default : UserProfile :=
  {| name := "Sir"; preferences := []; frequently_used_commands := [];
     last_interaction := None |}.

(** The decoded top-level object of the context file: the two keys the
    manager reads and writes, holding values from which the two
    dataclasses can be built (as [asdict] writes them), and whatever
    other keys the file holds. *)
Record context_data := {
  cd_user_profile : option UserProfile;
  cd_conversations : option (list ConversationTurn);
  cd_other : list (string * json)
}.

Definition empty_data : context_data :=
  {| cd_user_profile := None; cd_conversations := None; cd_other := [] |}.

(** What [os.path.exists] and [json.load] find at [context_file]:
    no file, a file that does not decode to an object, or an object.
    An object may hold under [user_profile] a value from which the
    call of [UserProfile] cannot build a profile, or, beside a profile
    that is absent or can be built, under [conversations] a list with an
    element from which the call of [ConversationTurn] cannot build a
    turn; each comes with the other keys of the object. *)
Inductive file_state :=
| Missing
| Corrupt
| Object (d : context_data)
| BadProfile (other : list (string * json))
| BadConversations (profile_data : option UserProfile)
                   (other : list (string * json)).

(** The file together with the log of everything written to it.  Opening
    the file for writing is taken to succeed. *)
Record world := {
  file : file_state;
  writes : list context_data
}.

Definition write_file (d : context_data) (w : world) : world :=
  {| file := Object d; writes := writes w ++ [d] |}.

Record ContextManager := {
  context_file : string;
  max_history : Z;
  current_session_id : string;
  current_session : list ConversationTurn;   (* deque(maxlen=5) *)
  history : list ConversationTurn;
  user_profile : UserProfile
}.

Definition maxlen : nat := 5.

(** [deque.append] on a deque with [maxlen]: push right, and pop left
    when the bound is exceeded. *)
Definition deque_append {A} (d : list A) (x : A) : list A :=
  let d' := d ++ [x] in
  if (maxlen <? length d')%nat then drop 1 d' else d'.

(** [deque.extend]: append the items one by one. *)
Definition deque_extend {A} (d : list A) (xs : list A) : list A :=
  foldl deque_append d xs.

Definition set_session (cm : ContextManager) s : ContextManager :=
  {| context_file := context_file cm; max_history := max_history cm;
     current_session_id := current_session_id cm; current_session := s;
     history := history cm; user_profile := user_profile cm |}.

Definition set_history (cm : ContextManager) h : ContextManager :=
  {| context_file := context_file cm; max_history := max_history cm;
     current_session_id := current_session_id cm;
     current_session := current_session cm;
     history := h; user_profile := user_profile cm |}.

Definition set_profile (cm : ContextManager) p : ContextManager :=
  {| context_file := context_file cm; max_history := max_history cm;
     current_session_id := current_session_id cm;
     current_session := current_session cm;
     history := history cm; user_profile := p |}.

Definition set_session_id (cm : ContextManager) sid : ContextManager :=
  {| context_file := context_file cm; max_history := max_history cm;
     current_session_id := sid; current_session := current_session cm;
     history := history cm; user_profile := user_profile cm |}.

(** [_load_context]: a missing file is skipped, a file that does not
    decode raises inside the [try] and changes nothing.  So does a
    profile that cannot be built, before the conversations are looked
    at; a conversation that cannot be built raises after the profile has
    been assigned and before the history is. *)
Definition _load_context (cm : ContextManager) (w : world) : ContextManager :=
  match file w with
  | Missing => cm
  | Corrupt => cm
  | BadProfile _ => cm
  | BadConversations profile_data _ =>
      match profile_data with
      | Some profile_data => set_profile cm profile_data
      | None => cm
      end
  | Object data =>
      let cm1 :=
        match cd_user_profile data with
        | Some profile_data => set_profile cm profile_data
        | None => cm
        end in
      match cd_conversations data with
      | Some turns =>
          let cm2 := set_history cm1 turns in
          set_session cm2
            (deque_extend (current_session cm2) (slice_from (-5) (history cm2)))
      | None => cm1
      end
  end.

(** [__init__]; [sid] is the start time rendered by [strftime]. *)
Definition init (sid : string) (context_file : string) (max_history : Z)
    (w : world) : ContextManager :=
  _load_context
    {| context_file := context_file; max_history := max_history;
       current_session_id := sid; current_session := [];
       history := []; user_profile := UserProfile_default |} w.

(** [_save_context]: reads the file first (a file that does not decode to
    an object raises here, before anything is written), then overwrites
    the two keys and writes the object back. *)
Definition _save_context (cm : ContextManager) (w : world) : world :=
  let save existing_data :=
    write_file
      {| cd_user_profile := Some (user_profile cm);
         cd_conversations := Some (slice_from (- max_history cm) (history cm));
         cd_other := cd_other existing_data |} w in
  match file w with
  | Missing => save empty_data
  | Corrupt => w
  | Object existing_data => save existing_data
  | BadProfile other | BadConversations _ other =>
      save {| cd_user_profile := None; cd_conversations := None;
              cd_other := other |}
  end.

Definition command_keywords : list string :=
  ["create"; "write"; "read"; "execute"; "remind"; "list"]%string.

(** One iteration of the keyword loop of [_update_user_preferences]. *)
Definition update_keyword (user_input : string) (commands : list string)
    (keyword : string) : list string :=
  if contains keyword (lower user_input) then
    if negb (bool_decide (keyword ∈ commands)) then commands ++ [keyword]
    else if (10 <? length commands)%nat then slice_from (-10) commands
    else commands
  else commands.

Definition _update_user_preferences (user_input : string) (p : UserProfile)
    : UserProfile :=
  {| name := name p; preferences := preferences p;
     frequently_used_commands :=
       foldl (update_keyword user_input) (frequently_used_commands p)
             command_keywords;
     last_interaction := last_interaction p |}.

Definition set_last_interaction (p : UserProfile) (t : string) : UserProfile :=
  {| name := name p; preferences := preferences p;
     frequently_used_commands := frequently_used_commands p;
     last_interaction := Some t |}.

(** [add_conversation_turn]; [now] is [datetime.now().isoformat()]. *)
Definition add_conversation_turn (now user_input assistant_response
    context_type : string) (s : ContextManager * world)
    : ContextManager * world :=
  let '(cm, w) := s in
  let turn := {| timestamp := now; user_input := user_input;
                 assistant_response := assistant_response;
                 session_id := current_session_id cm;
                 context_type := context_type |} in
  let cm := set_session cm (deque_append (current_session cm) turn) in
  let cm := set_history cm (history cm ++ [turn]) in
  let cm := set_profile cm (set_last_interaction (user_profile cm) (timestamp turn)) in
  let cm := set_profile cm (_update_user_preferences user_input (user_profile cm)) in
  if (length (current_session cm) mod 5 =? 0)%nat
  then (cm, _save_context cm w)
  else (cm, w).

(** The loop of [get_relevant_context] over [reversed(self.history)],
    with its [break]. *)
Fixpoint scan_history (words : list string) (turns : list ConversationTurn)
    (relevant_turns : list ConversationTurn) : list ConversationTurn :=
  match turns with
  | [] => relevant_turns
  | turn :: rest =>
      if existsb (fun word => contains word (lower (user_input turn))) words
      then
        let relevant_turns := relevant_turns ++ [turn] in
        if (3 <=? length relevant_turns)%nat then relevant_turns
        else scan_history words rest relevant_turns
      else scan_history words rest relevant_turns
  end.

Definition render_relevant (context : string) (turn : ConversationTurn) : string :=
  context +:+ "Previously - User: " +:+ user_input turn +:+ nl +:+
  "Assistant: " +:+ str_upto 150 (assistant_response turn) +:+ "..." +:+ nl +:+
  "---" +:+ nl.

Definition get_relevant_context (cm : ContextManager) (current_input : string)
    : string :=
  match current_session cm with
  | [] => ""
  | _ =>
      let current_lower := lower current_input in
      let relevant_turns :=
        scan_history (split current_lower) (rev (history cm)) [] in
      match relevant_turns with
      | [] => ""
      | _ =>
          foldl render_relevant ("## Relevant Previous Context:" +:+ nl)
                (rev relevant_turns)
      end
  end.

(** [clear_session] *)
Definition clear_session (sid : string) (cm : ContextManager) : ContextManager :=
  set_session_id (set_history (set_session cm []) []) sid.

(** [clean_context_file]: the file is overwritten with the empty object,
    then the window, the profile and the session id are reset. *)
Definition clean_context_file (sid : string) (s : ContextManager * world)
    : ContextManager * world :=
  let '(cm, w) := s in
  let w := write_file empty_data w in
  let cm := set_session cm [] in
  let cm := set_profile cm UserProfile_default in
  let cm := set_session_id cm sid in
  (cm, w).

End Context.

(** ** State and exceptions: the shape of a Python method body *)
Module Eff.

(** A computation over a mutable state [S]: the state it leaves behind,
    and a result or the exception that ended it.  An exception does not
    undo the mutations made before it. *)
Definition M (S A : Type) : Type := S -> S * outcome A.

Definition ret {S A} (a : A) : M S A := fun s => (s, Return a).

Definition bind {S A B} (m : M S A) (k : A -> M S B) : M S B :=
  fun s =>
    match m s with
    | (s', Return a) => k a s'
    | (s', Raise e) => (s', Raise e)
    end.

(** The result of an expression that only reads its arguments. *)
Definition lift {S A} (o : outcome A) : M S A := fun s => (s, o).

Definition gets {S A} (f : S -> A) : M S A := fun s => (s, Return (f s)).

Definition modify {S} (f : S -> S) : M S unit := fun s => (f s, Return tt).

(** [try: body except Exception as e: handler e] *)
Definition try_except {S A} (body : M S A) (handler : exn -> M S A) : M S A :=
  fun s =>
    match body s with
    | (s', Return a) => (s', Return a)
    | (s', Raise e) => handler e s'
    end.

(** [for x in xs: body x] *)
Fixpoint for_each {S A} (xs : list A) (body : A -> M S unit) : M S unit :=
  match xs with
  | [] => ret tt
  | x :: xs' => bind (body x) (fun _ => for_each xs' body)
  end.

Module Notations.
Notation "'let*' x ':=' m 'in' k" := (bind m (fun x => k))
  (at level 10, x name, m at level 100, k at level 200).
Notation "m ';;' k" := (bind m (fun _ => k))
  (at level 100, k at level 200, right associativity).
End Notations.

End Eff.

(** ** backend/tools/remotetools.py *)
Module Remote.
Import Eff Eff.Notations.
Local Open Scope string_scope.

(** Behaviour of the Python runtime and of the libraries the module
    calls, on which the module's own logic does not depend. *)
Class Runtime := {
  (** [str(v)] of a decoded JSON value that is not a string *)
  py_str : json -> string;
  (** [json.dumps(v, indent=2)] *)
  json_dumps : json -> string;
  (** [str(e)] of a caught exception *)
  str_exn : exn -> string;
  (** whether langchain's [tool(f)] accepts a function with this
      [__name__] and [__doc__] *)
  tool_accepts : string -> json -> bool
}.

(** [f"{v}"] *)
Definition fmt `{Runtime} (v : json) : string :=
  match v with
  | JStr s => s
  | _ => py_str v
  end.

Definition upper_char (c : ascii) : ascii :=
  let n := nat_of_ascii c in
  if ((97 <=? n) && (n <=? 122))%nat then ascii_of_nat (n - 32) else c.

Fixpoint upper (s : string) : string :=
  match s with
  | EmptyString => EmptyString
  | String c s' => String (upper_char c) (upper s')
  end.

(** [v.upper()]: only a string has the method. *)
Definition upper_of (v : json) : outcome string :=
  match v with
  | JStr s => Return (upper s)
  | _ => Raise AttributeError
  end.

(** Keys of [self.tool_configs]: the hashable JSON values.  [True] and
    [False] are the keys [1] and [0]. *)
Inductive key :=
| KStr (s : string)
| KInt (z : Z)
| KNone.

#[global] Instance key_eq_dec : EqDecision key.
Proof. solve_decision. Defined.

#[global] Instance key_countable : Countable key :=
  inj_countable'
    (fun k => match k with
              | KStr s => inl s
              | KInt z => inr (inl z)
              | KNone => inr (inr tt)
              end)
    (fun x => match x with
              | inl s => KStr s
              | inr (inl z) => KInt z
              | inr (inr _) => KNone
              end)
    (fun k => match k with KStr _ | KInt _ | KNone => eq_refl end).

(** [hash(v)], as needed to use [v] as a dict key. *)
Definition hash_key (v : json) : outcome key :=
  match v with
  | JNull => Return KNone
  | JBool b => Return (KInt (if b then 1 else 0))
  | JInt z => Return (KInt z)
  | JStr s => Return (KStr s)
  | JList _ | JDict _ => Raise TypeError
  end.

(** [for x in v]: the items of a list, the keys of a dict, the
    characters of a string. *)
Fixpoint chars (s : string) : list json :=
  match s with
  | EmptyString => []
  | String c s' => JStr (String c EmptyString) :: chars s'
  end.

Definition iterate (v : json) : outcome (list json) :=
  match v with
  | JList l => Return l
  | JDict d => Return (map (fun kv => JStr (fst kv)) d)
  | JStr s => Return (chars s)
  | _ => Raise TypeError
  end.

(** *** The remote server, as [requests] sees it *)

Definition kwargs := list (string * json).

Inductive request :=
| GET (url : string) (params : kwargs) (timeout : Z)
| POST (url : string) (json_body : kwargs) (timeout : Z).

Record response := {
  status_code : Z;
  text : string;
  (** the decoded body, [None] when [text] is not JSON *)
  body : option json
}.

(** [response.json()] *)
Definition response_json (r : response) : outcome json :=
  match body r with
  | Some v => Return v
  | None => Raise JSONDecodeError
  end.

Definition server := request -> outcome response.

(** A registered LangChain tool. *)
Record lc_tool := {
  lt_name : string;
  lt_description : json
}.

Record RemoteToolsManager := {
  base_url : string;
  tools : list lc_tool;
  tool_configs : gmap key json
}.

(** [RemoteToolsManager(base_url)] *)
Definition init (base_url : string) : RemoteToolsManager :=
  {| base_url := base_url; tools := []; tool_configs := ∅ |}.

(** The manager and the requests sent so far. *)
Record state := {
  self : RemoteToolsManager;
  sent : list request
}.

Definition set_tool_config (k : key) (v : json) (s : state) : state :=
  {| self := {| base_url := base_url (self s); tools := tools (self s);
                tool_configs := <[k := v]> (tool_configs (self s)) |};
     sent := sent s |}.

Definition append_tool (t : lc_tool) (s : state) : state :=
  {| self := {| base_url := base_url (self s); tools := tools (self s) ++ [t];
                tool_configs := tool_configs (self s) |};
     sent := sent s |}.

(** [requests.get] / [requests.post]: the request goes out, and the
    server's answer or the transport's exception comes back. *)
Definition send (srv : server) (r : request) : M state response :=
  fun s => ({| self := self s; sent := sent s ++ [r] |}, srv r).

(** [self.tool_configs[tool_name]] *)
Definition lookup_config (tool_name : string) : M state json :=
  fun s =>
    match tool_configs (self s) !! KStr tool_name with
    | Some c => (s, Return c)
    | None => (s, Raise (KeyError tool_name))
    end.

(** *** Failure and success texts of [_execute_remote_tool] *)

Definition msg_unsupported (method : string) : string :=
  "❌ Unsupported HTTP method: " ++ method.
Definition msg_plain_success (tool_name text : string) : string :=
  "✅ " ++ tool_name ++ " completed successfully:" ++ nl ++ text.
Definition msg_http (tool_name : string) (status : Z) (text : string) : string :=
  "❌ " ++ tool_name ++ " failed with HTTP " ++ str_of_int status ++ ": " ++ text.
Definition msg_timeout (tool_name : string) : string :=
  "❌ " ++ tool_name ++ " timed out after 30 seconds".
Definition msg_connection (tool_name : string) : string :=
  "❌ Could not connect to remote service for " ++ tool_name.
Definition msg_exception (tool_name what : string) : string :=
  "❌ Error executing " ++ tool_name ++ ": " ++ what.
Definition msg_failed (tool_name error : string) : string :=
  "❌ " ++ tool_name ++ " failed: " ++ error.
Definition msg_error (tool_name error : string) : string :=
  "❌ " ++ tool_name ++ " error: " ++ error.

Definition is_container (v : json) : bool :=
  match v with JList _ | JDict _ => true | _ => false end.

(** [_format_tool_response] *)
Definition _format_tool_response `{Runtime} (tool_name : string) (result : json)
    : string :=
  match result with
  | JDict d =>
      match assoc "success" d with
      | Some success =>
          if truthy success then
            let message := default (JStr "") (assoc "message" d) in
            let data := default (JStr "") (assoc "data" d) in
            let response := "✅ " ++ tool_name ++ " completed successfully" in
            let response :=
              if truthy message then response ++ nl ++ "💬 " ++ fmt message
              else response in
            let response :=
              if truthy data then
                if is_container data
                then response ++ nl ++ "📊 Data: " ++ json_dumps data
                else response ++ nl ++ "📊 Data: " ++ fmt data
              else response in
            response
          else
            let error := default (JStr "Unknown error") (assoc "error" d) in
            msg_failed tool_name (fmt error)
      | None =>
          match assoc "error" d with
          | Some error => msg_error tool_name (fmt error)
          | None =>
              strip
                (foldl (fun response kv =>
                          if is_container (snd kv)
                          then response ++ "📋 " ++ fst kv ++ ": " ++ json_dumps (snd kv) ++ nl
                          else response ++ "📋 " ++ fst kv ++ ": " ++ fmt (snd kv) ++ nl)
                       ("✅ " ++ tool_name ++ " response:" ++ nl) d)
          end
      end
  | _ => "✅ " ++ tool_name ++ " result: " ++ fmt result
  end.

Definition handle_response `{Runtime} (tool_name : string) (r : response)
    : M state string :=
  if (status_code r =? 200)%Z then
    try_except
      (let* result := lift (response_json r) in
       ret (_format_tool_response tool_name result))
      (fun e =>
         match e with
         | JSONDecodeError => ret (msg_plain_success tool_name (text r))
         | _ => lift (Raise e)
         end)
  else ret (msg_http tool_name (status_code r) (text r)).

(** [_execute_remote_tool] *)
Definition _execute_remote_tool `{Runtime} (srv : server) (tool_name : string)
    (kw : kwargs) : M state string :=
  try_except
    (let* tool_config := lookup_config tool_name in
     let* endpoint := lift (getitem tool_config "endpoint") in
     let* method := lift (getitem tool_config "method") in
     let payload := kw in
     let* base := gets (fun s => base_url (self s)) in
     let* m := lift (upper_of method) in
     if String.eqb m "POST" then
       let* response := send srv (POST (base ++ fmt endpoint) payload 30) in
       handle_response tool_name response
     else if String.eqb m "GET" then
       let* response := send srv (GET (base ++ fmt endpoint) payload 30) in
       handle_response tool_name response
     else ret (msg_unsupported (fmt method)))
    (fun e =>
       if is_Timeout e then ret (msg_timeout tool_name)
       else if is_ConnectionError e then ret (msg_connection tool_name)
       else ret (msg_exception tool_name (str_exn e))).

(** [_create_langchain_tool]: [__name__] must be set to a string, and
    langchain must accept the function. *)
Definition _create_langchain_tool `{Runtime} (tool_config : json)
    : outcome lc_tool :=
  match getitem tool_config "name" with
  | Raise e => Raise e
  | Return tool_name =>
      match getitem tool_config "description" with
      | Raise e => Raise e
      | Return tool_description =>
          match tool_name with
          | JStr n =>
              if tool_accepts n tool_description
              then Return {| lt_name := n; lt_description := tool_description |}
              else Raise (OtherException "tool")
          | _ => Raise TypeError
          end
      end
  end.

(** The body of the loop of [_register_tools] for one entry.  The
    handler itself calls [tool_config.get], which raises when the entry
    is not a dict. *)
Definition register_tool `{Runtime} (tool_config : json) : M state unit :=
  try_except
    (let* tool_name := lift (getitem tool_config "name") in
     let* k := lift (hash_key tool_name) in
     modify (set_tool_config k tool_config);;
     let* langchain_tool := lift (_create_langchain_tool tool_config) in
     modify (append_tool langchain_tool))
    (fun e =>
       let* _ := lift (get tool_config "name" (JStr "unknown")) in
       ret tt).

(** [_register_tools] *)
Definition _register_tools `{Runtime} (tools_list : json) : M state unit :=
  let* entries := lift (iterate tools_list) in
  for_each entries register_tool.

(** [discover_tools] *)
Definition discover_tools `{Runtime} (srv : server) : M state bool :=
  try_except
    (let* base := gets (fun s => base_url (self s)) in
     let* response := send srv (GET (base ++ "/gmail/tools/list") [] 10) in
     if (status_code response =? 200)%Z then
       let* tools_data := lift (response_json response) in
       let* tools_list := lift (get tools_data "tools" (JList [])) in
       _register_tools tools_list;;
       ret true
     else ret false)
    (fun e =>
       if is_ConnectionError e then ret false
       else if is_Timeout e then ret false
       else ret false).

(** [health_check] *)
Definition health_check (srv : server) : M state bool :=
  try_except
    (let* base := gets (fun s => base_url (self s)) in
     let* response := send srv (GET (base ++ "/health") [] 5) in
     ret (status_code response =? 200)%Z)
    (fun _ => ret false).

End Remote.

(** ** backend/tools/localtools.py: the reminder store and its scheduler *)
Module Reminders.

(** What the module needs of [datetime] and of the runtime.  Instants
    are microseconds counted from the first instant that [datetime] can
    hold, which is a midnight; a text in the format ["%Y-%m-%d %H:%M"]
    names a minute.  Nothing is assumed of reading back what was
    written: with glibc the text that [strftime] writes for a year
    before 1000 is one that [strptime] refuses. *)
Class Calendar := {
  (** [datetime.strptime(text, "%Y-%m-%d %H:%M")] as a count of minutes,
      [None] when it raises [ValueError] *)
  strptime_minutes : string -> option Z;
  (** [strftime("%Y-%m-%d %H:%M")] of a count of minutes *)
  strftime_minutes : Z -> string;
  (** [strftime('%Y-%m-%d at %H:%M')] of an instant *)
  strftime_at : Z -> string;
  (** [str(e)] of a caught exception *)
  exn_text : exn -> string
}.

(** One record of [reminders.json], with the keys that [create_reminder]
    writes and values of the types it writes.  [datetime] and
    [created_at] are the texts written by [strftime("%Y-%m-%d %H:%M")];
    [notified] is [None] when the record has no such key. *)
Record reminder := {
  id : Z;
  task : string;
  description : string;
  datetime : string;
  created_at : string;
  completed : bool;
  notified : option bool
}.

(** What is found at [REMINDERS_FILE]. *)
Inductive file_state :=
| Missing
| Corrupt
| Stored (l : list reminder).

(** [load_reminders]: a missing file and a file that fails to load both
    give the empty list. *)
Definition load_reminders (f : file_state) : list reminder :=
  match f with
  | Stored l => l
  | Missing | Corrupt => []
  end.

(** [save_reminders] *)
Definition save_reminders (reminders : list reminder) (f : file_state)
    : file_state :=
  Stored reminders.

Definition ValueError : exn := OtherException "ValueError".

(** Instants are counted in microseconds, the resolution of
    [datetime.now()]. *)
Definition minute : Z := 60 * 1000000.

(** [datetime.strptime(text, "%Y-%m-%d %H:%M")] as an instant: it raises
    [ValueError] for a text that it cannot read. *)
Definition strptime `{Calendar} (text : string) : outcome Z :=
  match strptime_minutes text with
  | Some m => Return (m * minute)
  | None => Raise ValueError
  end.

(** [0 <= (now - remind_time).total_seconds() <= 60]: [total_seconds]
    divides the microseconds by [10^6], and the two comparisons are
    against whole numbers of seconds. *)
Definition in_window (now remind_time : Z) : bool :=
  (0 <=? now - remind_time) && (now - remind_time <=? 60 * 1000000).

(** [reminder["notified"] = True] *)
Definition set_notified (r : reminder) : reminder :=
  {| id := id r; task := task r; description := description r;
     datetime := datetime r; created_at := created_at r;
     completed := completed r; notified := Some true |}.

(** The state of one cycle: the list loaded at its start (whose records
    the loop mutates in place), the file, and the notifications shown,
    each with the position of its record in the list. *)
Record cycle := {
  reminders : list reminder;
  store : file_state;
  shown : list (nat * reminder)
}.

(** The body of [for reminder in reminders] at position [i].  The time
    of a record is read only when the record is neither completed nor
    notified; a text that cannot be read raises. *)
Definition visit `{Calendar} (now : Z) (c : cycle) (i : nat) : outcome cycle :=
  match reminders c !! i with
  | None => Return c
  | Some reminder =>
      if negb (completed reminder) && negb (default false (notified reminder))
      then
        match strptime (datetime reminder) with
        | Raise e => Raise e
        | Return remind_time =>
            if in_window now remind_time then
              let reminders' := <[i := set_notified reminder]> (reminders c) in
              Return {| reminders := reminders';
                        store := save_reminders reminders' (store c);
                        shown := shown c ++ [(i, reminder)] |}
            else Return c
        end
      else Return c
  end.

(** The [for] loop, which stands inside the [try]: the first exception
    ends the loop, and what was shown and saved before it stays. *)
Fixpoint scan `{Calendar} (now : Z) (c : cycle) (positions : list nat)
    : cycle * outcome unit :=
  match positions with
  | [] => (c, Return tt)
  | i :: positions' =>
      match visit now c i with
      | Return c' => scan now c' positions'
      | Raise e => (c, Raise e)
      end
  end.

(** One pass of the [while] loop of [reminder_scheduler], at instant
    [now]: the cycle as the loop leaves it, and the exception that the
    handler catches, if there is one. *)
Definition scheduler_pass `{Calendar} (now : Z) (f : file_state)
    : cycle * outcome unit :=
  let reminders := load_reminders f in
  scan now {| reminders := reminders; store := f; shown := [] |}
       (seq 0 (length reminders)).

(** What one pass leaves, whether or not it was ended by an exception. *)
Definition scheduler_cycle `{Calendar} (now : Z) (f : file_state) : cycle :=
  fst (scheduler_pass now f).

(** [reminder_scheduler] while the flag stays set: one cycle per wake-up
    instant of [clock] (the handler only prints and sleeps longer).
    Returns the file and what each cycle showed. *)
Fixpoint reminder_scheduler `{Calendar} (clock : list Z) (f : file_state)
    : file_state * list (list (nat * reminder)) :=
  match clock with
  | [] => (f, [])
  | now :: clock' =>
      let c := scheduler_cycle now f in
      let '(f', later) := reminder_scheduler clock' (store c) in
      (f', shown c :: later)
  end.

End Reminders.

(** ** Vocabulary of the properties *)

(** *** Context store *)
Module ContextSpec.
Import Context.

(** The window respects the bound of its deque. *)
Definition window_ok (cm : ContextManager) : Prop :=
  (length (current_session cm) <= maxlen)%nat.

(** The arguments of one call of [add_conversation_turn], with the clock
    reading taken by that call. *)
Record turn_input := {
  ti_now : string;
  ti_user_input : string;
  ti_response : string;
  ti_context_type : string
}.

Definition record_turn (s : ContextManager * world) (t : turn_input)
    : ContextManager * world :=
  add_conversation_turn (ti_now t) (ti_user_input t) (ti_response t)
                        (ti_context_type t) s.

(** A sequence of calls, in call order. *)
Definition record_turns (s : ContextManager * world) (ts : list turn_input)
    : ContextManager * world :=
  foldl record_turn s ts.

(** The turn that a call builds in session [sid]. *)
Definition turn_of (sid : string) (t : turn_input) : ConversationTurn :=
  {| timestamp := ti_now t; user_input := ti_user_input t;
     assistant_response := ti_response t; session_id := sid;
     context_type := ti_context_type t |}.

(** The last [n] items of a list. *)
Definition last_n {A} (n : nat) (l : list A) : list A :=
  drop (length l - n) l.


(** Some whitespace-delimited token of the lowercased query occurs
    inside the lowercased [user_input] of the turn. *)
Definition token_occurs (query : string) (turn : ConversationTurn) : bool :=
  existsb (fun word => contains word (lower (user_input turn)))
          (split (lower query)).


(** The newest three turns of the history that pass [keep], in the
    order of the history (oldest first). *)
Definition newest_three (keep : ConversationTurn -> bool)
    (history : list ConversationTurn) : list ConversationTurn :=
  last_n 3 (List.filter keep history).

Definition render_all (turns : list ConversationTurn) : string :=
  match turns with
  | [] => ""
  | _ => foldl render_relevant ("## Relevant Previous Context:" +:+ nl) turns
  end.

(** The keywords of the vocabulary that a user input uses. *)
Definition used_keywords (user_input : string) : list string :=
  List.filter (fun k => contains k (lower user_input)) command_keywords.

(** A keyword that the input uses and that the list does not hold. *)
Definition is_new (user_input : string) (commands : list string)
    (k : string) : bool :=
  contains k (lower user_input) && negb (bool_decide (k ∈ commands)).

(** Most-recent-last: when the latest input used a keyword, the list
    ends with a keyword of that input. *)
Definition most_recent_last (user_input : string) (commands : list string)
    : Prop :=
  used_keywords user_input <> [] ->
  exists k, last commands = Some k /\ k ∈ used_keywords user_input.

(** The commands are distinct keywords of the vocabulary, as they are in
    every profile that the manager has built from the default one. *)
Definition commands_ok (commands : list string) : Prop :=
  NoDup commands /\ forall k, k ∈ commands -> k ∈ command_keywords.

(** **** Sample data *)

Definition no_file : world := {| file := Missing; writes := [] |}.

Definition fresh : ContextManager :=
  init "20240101_090000" "context_memory.json" 100 no_file.

Definition said (u r : string) : turn_input :=
  {| ti_now := "2024-01-01T09:00:00"; ti_user_input := u; ti_response := r;
     ti_context_type := "general" |}.

Definition six_turns : list turn_input :=
  [said "one" "1"; said "two" "2"; said "three" "3"; said "four" "4";
   said "five" "5"; said "six" "6"].

End ContextSpec.

(** *** Capability registry *)
Module RemoteSpec.
Import Remote.

(** The key under which [_register_tools] stores an entry, if any. *)
Definition config_key (entry : json) : option key :=
  match getitem entry "name" with
  | Return tool_name =>
      match hash_key tool_name with
      | Return k => Some k
      | Raise _ => None
      end
  | Raise _ => None
  end.

(** Entries stored one after the other into an existing set, a later
    entry replacing an earlier one of the same name. *)
Definition merge_configs (entries : list json) (configs : gmap key json)
    : gmap key json :=
  foldl (fun m entry =>
           match config_key entry with
           | Some k => <[k := entry]> m
           | None => m
           end) configs entries.

(** The descriptor set that holds the listed entries and nothing else:
    what a discovery would leave if it replaced the set. *)
Definition replaced_by (entries : list json) : gmap key json :=
  merge_configs entries ∅.

Definition is_dict (v : json) : Prop :=
  match v with JDict _ => True | _ => False end.

(** The listing request of [discover_tools]. *)
Definition listing (s : state) : request :=
  GET (base_url (self s) +:+ "/gmail/tools/list") [] 10.

(** The state once [r] has been sent. *)
Definition after_send (s : state) (r : request) : state :=
  {| self := self s; sent := sent s ++ [r] |}.

(** The request that [_execute_remote_tool] sends for a config with a
    string method. *)
Definition request_of `{Runtime} (base_url : string) (endpoint : json)
    (method : string) (kw : kwargs) : request :=
  if String.eqb (upper method) "POST"
  then POST (base_url +:+ fmt endpoint) kw 30
  else GET (base_url +:+ fmt endpoint) kw 30.

(** The text that a call returns for the answer to its request. *)
Definition answer_text `{Runtime} (tool_name : string) (o : outcome response)
    : string :=
  match o with
  | Raise e =>
      if is_Timeout e then msg_timeout tool_name
      else if is_ConnectionError e then msg_connection tool_name
      else msg_exception tool_name (str_exn e)
  | Return r =>
      if status_code r =? 200 then
        match body r with
        | Some result => _format_tool_response tool_name result
        | None => msg_plain_success tool_name (text r)
        end
      else msg_http tool_name (status_code r) (text r)
  end.

(** How often a character occurs in a string. *)
Fixpoint occurrences (c : ascii) (s : string) : nat :=
  match s with
  | EmptyString => 0
  | String c' s' => (if Ascii.eqb c c' then 1 else 0) + occurrences c s'
  end.

(** **** Sample data *)

Definition sample_runtime : Runtime :=
  {| py_str := fun _ => "<value>"%string;
     json_dumps := fun _ => "<json>"%string;
     str_exn := fun e =>
       match e with
       | KeyError k => ("'" +:+ k +:+ "'")%string
       | _ => "<exception>"%string
       end;
     tool_accepts := fun _ _ => true |}.

Definition send_email : json :=
  JDict [("name", JStr "send_email"); ("description", JStr "Send an email");
         ("endpoint", JStr "/gmail/send"); ("method", JStr "POST")]%string.

Definition read_inbox : json :=
  JDict [("name", JStr "read_inbox"); ("description", JStr "Read the inbox");
         ("endpoint", JStr "/gmail/inbox"); ("method", JStr "GET")]%string.

Definition listing_of (entries : list json) : server :=
  fun _ => Return {| status_code := 200; text := "";
                     body := Some (JDict [("tools"%string, JList entries)]) |}.

Definition unreachable : server := fun _ => Raise ConnectionError.

Definition started : state :=
  {| self := init "http://localhost:8000"; sent := [] |}.

(** The registry after a first discovery that lists [send_email]. *)
Definition first_epoch : state :=
  fst (@discover_tools sample_runtime (listing_of [send_email]) started).

End RemoteSpec.

(** *** Reminder scheduler *)
Module RemindersSpec.
Import Reminders.

(** An obligation is due at [now]: not completed, not notified, with a
    time that can be read, and between 0 and 60 seconds past it. *)
Definition due `{Calendar} (now : Z) (r : reminder) : Prop :=
  completed r = false /\
  default false (notified r) = false /\
  match strptime_minutes (datetime r) with
  | Some m => 0 <= now - m * minute <= 60 * 1000000
  | None => False
  end.

#[global] Instance due_dec `{Calendar} now r : Decision (due now r).
Proof. unfold due. destruct (strptime_minutes (datetime r)); apply _. Defined.

(** An obligation at which a cycle stops: not completed, not notified,
    with a time that cannot be read. *)
Definition unreadable `{Calendar} (r : reminder) : Prop :=
  completed r = false /\
  default false (notified r) = false /\
  strptime_minutes (datetime r) = None.

#[global] Instance unreadable_dec `{Calendar} r : Decision (unreadable r).
Proof. unfold unreadable. apply _. Defined.

(** No obligation before position [i] stops a cycle. *)
Definition unblocked `{Calendar} (i : nat) (l : list reminder) : Prop :=
  Forall (fun r => ~ unreadable r) (take i l).

(** The records that a cycle gets past: those before the first one at
    which it stops. *)
Fixpoint reached `{Calendar} (l : list reminder) : list reminder :=
  match l with
  | [] => []
  | r :: l' => if decide (unreadable r) then [] else r :: reached l'
  end.

(** The record as a cycle at [now] leaves it when it gets past it. *)
Definition mark `{Calendar} (now : Z) (r : reminder) : reminder :=
  if decide (due now r) then set_notified r else r.

(** The list as a cycle at [now] leaves it. *)
Fixpoint swept `{Calendar} (now : Z) (l : list reminder) : list reminder :=
  match l with
  | [] => []
  | r :: l' =>
      if decide (unreadable r) then r :: l' else mark now r :: swept now l'
  end.

(** The due records of [l], whose first record is at position [k]. *)
Fixpoint due_from `{Calendar} (now : Z) (k : nat) (l : list reminder)
    : list (nat * reminder) :=
  match l with
  | [] => []
  | r :: l' =>
      (if decide (due now r) then [(k, r)] else []) ++ due_from now (S k) l'
  end.



(** **** Sample data *)

(** The minutes before the year 1000, and before the year 2024. *)
Definition year_1000 : Z := 364877 * 1440.
Definition year_2024 : Z := 738885 * 1440.

(** A calendar in which the text of a minute is its number.  Like
    glibc's, it does not read back the texts of the years before
    1000. *)
Definition sample_calendar : Calendar :=
  {| strptime_minutes := fun text =>
       match NilEmpty.int_of_string text with
       | Some d => if year_1000 <=? Z.of_int d then Some (Z.of_int d) else None
       | None => None
       end;
     strftime_minutes := fun m => str_of_int m;
     strftime_at := fun t => str_of_int t;
     exn_text := fun _ => "<exception>"%string |}.

(** A reminder for ten past midnight on the first day of 2024, and an
    instant 30 seconds into that minute. *)
Definition call_mum : reminder :=
  {| id := 1; task := "call mum"; description := "";
     datetime := str_of_int (year_2024 + 10);
     created_at := str_of_int (year_2024 + 9);
     completed := false; notified := Some false |}.



End RemindersSpec.

(** ** Facts about strings *)

(** ** backend/context_manager.py: what the manager reports *)
Module ContextView.
Import Context ContextSpec.

(** The preview of a response in [get_context_summary]. *)
Definition response_preview (assistant_response : string) : string :=
  if (100 <? String.length assistant_response)%nat
  then str_upto 100 assistant_response +:+ "..."
  else assistant_response.

Definition render_recent (context_summary : string) (turn : ConversationTurn)
    : string :=
  context_summary +:+ "User: " +:+ user_input turn +:+ nl +:+
  "Assistant: " +:+ response_preview (assistant_response turn) +:+ nl +:+
  "---" +:+ nl.

Definition no_context : string := "No previous conversation context available.".

(** [get_context_summary] *)
Definition get_context_summary (cm : ContextManager) : string :=
  match current_session cm with
  | [] => no_context
  | _ =>
      let recent_turns := slice_from (-5) (current_session cm) in
      let context_summary :=
        foldl render_recent ("## Recent Conversation Context:" +:+ nl)
              recent_turns in
      match frequently_used_commands (user_profile cm) with
      | [] => context_summary
      | _ =>
          context_summary +:+ nl +:+ "## User frequently uses: " +:+
          String.concat ", "
            (slice_from (-5) (frequently_used_commands (user_profile cm))) +:+
          nl
      end
  end.

(** The dict that [get_stats] returns. *)
Record stats := {
  current_session_turns : nat;
  stats_session_id : string;
  user_name : string;
  stats_frequently_used_commands : list string;
  stats_last_interaction : option string
}.

(** [get_stats] *)
Definition get_stats (cm : ContextManager) : stats :=
  {| current_session_turns := length (current_session cm);
     stats_session_id := current_session_id cm;
     user_name := name (user_profile cm);
     stats_frequently_used_commands :=
       slice_from (-5) (frequently_used_commands (user_profile cm));
     stats_last_interaction := last_interaction (user_profile cm) |}.

(** [save_session] *)
Definition save_session (cm : ContextManager) (w : world) : world :=
  _save_context cm w.

(** The calls that the assistant makes on its one manager. *)
Inductive call :=
| Add (now user_input assistant_response context_type : string)
| Save
| Clear (sid : string)
| Clean (sid : string).

Definition do_call (s : ContextManager * world) (c : call)
    : ContextManager * world :=
  match c with
  | Add now u r ct => add_conversation_turn now u r ct s
  | Save => (fst s, save_session (fst s) (snd s))
  | Clear sid => (clear_session sid (fst s), snd s)
  | Clean sid => clean_context_file sid s
  end.

(** The window respects its bound and is the tail end of the history. *)
Definition follows (cm : ContextManager) : Prop :=
  window_ok cm /\ current_session cm `suffix_of` history cm.

(** The keys of the file other than the two of the manager. *)
Definition foreign_keys (w : world) : list (string * json) :=
  match file w with
  | Object d => cd_other d
  | BadProfile other | BadConversations _ other => other
  | Missing | Corrupt => []
  end.

Definition is_clean (c : call) : bool :=
  match c with Clean _ => true | _ => false end.

(** Every character of [s] passes [p]. *)
Fixpoint all_chars (p : ascii -> bool) (s : string) : bool :=
  match s with
  | EmptyString => true
  | String c s' => p c && all_chars p s'
  end.

(** **** Sample data *)

Definition undecodable : world := {| file := Corrupt; writes := [] |}.

End ContextView.

(** ** backend/model.py: the callers of the context manager *)
Module Model.
Import Context ContextSpec ContextView.

Definition dq : string := String (ascii_of_nat 34) EmptyString.

(** The dict that [classify_and_summarize_response] returns. *)
Record spoken := {
  speak_full_response : bool;
  spoken_response : string
}.

Definition indent : string := "        ".

Definition personal_prompt (commands : list string) (response : string) : string :=
  "The user frequently uses commands like: " +:+ String.concat ", " commands +:+
  nl +:+ indent +:+ nl +:+ indent +:+
  "Summarize this response for voice output, keeping it concise and focused on the key information:" +:+
  nl +:+ indent +:+ nl +:+ indent +:+ dq +:+ response +:+ dq +:+
  nl +:+ indent +:+ nl +:+ indent +:+ "Voice Summary:".

Definition standard_prompt (response : string) : string :=
  "Summarize the following text for a voice assistant to speak. The summary should be concise and natural." +:+
  nl +:+ indent +:+ "Text: " +:+ dq +:+ response +:+ dq +:+
  nl +:+ indent +:+ "Summary:".

(** [classify_and_summarize_response]; [generate_text] is the call of the
    language model, which may raise. *)
Definition classify_and_summarize_response
    (generate_text : string -> outcome string) (cm : ContextManager)
    (response : string) : outcome spoken :=
  let user_stats := get_stats cm in
  let summarize prompt :=
    match generate_text prompt with
    | Return summary =>
        Return {| speak_full_response := false; spoken_response := summary |}
    | Raise e => Raise e
    end in
  if (3 <? length (stats_frequently_used_commands user_stats))%nat
     && (300 <? String.length response)%nat
  then summarize (personal_prompt (stats_frequently_used_commands user_stats) response)
  else if (200 <? String.length response)%nat
  then summarize (standard_prompt response)
  else Return {| speak_full_response := true; spoken_response := response |}.

End Model.

(** ** backend/tools/remotetools.py: the read-only methods, and the
    caller in backend/model.py that builds the manager *)
Module RemoteView.
Import Eff Remote RemoteSpec.

(** [get_tools] *)
Definition get_tools (m : RemoteToolsManager) : list lc_tool := tools m.

(** [get_tool_info] *)
Definition get_tool_info (m : RemoteToolsManager) (tool_name : string) : json :=
  default (JDict []) (tool_configs m !! KStr tool_name).

(** One item of the dict comprehension of [list_available_tools]:
    [config['name']], then [config['description']], then the hash of the
    name. *)
Definition describe (config : json) : outcome (key * json) :=
  match getitem config "name" with
  | Raise e => Raise e
  | Return tool_name =>
      match getitem config "description" with
      | Raise e => Raise e
      | Return tool_description =>
          match hash_key tool_name with
          | Raise e => Raise e
          | Return k => Return (k, tool_description)
          end
      end
  end.

(** The comprehension over [configs]: it stops at the first config that
    raises. *)
Fixpoint describe_all (configs : list json) : outcome (list (key * json)) :=
  match configs with
  | [] => Return []
  | config :: configs' =>
      match describe config with
      | Raise e => Raise e
      | Return item =>
          match describe_all configs' with
          | Raise e => Raise e
          | Return items => Return (item :: items)
          end
      end
  end.

(** [list_available_tools]: the items that the comprehension produces,
    or the exception of the first config that raises.  The configs are
    visited in the enumeration order of the map. *)
Definition list_available_tools (m : RemoteToolsManager)
    : outcome (list (key * json)) :=
  describe_all (snd <$> map_to_list (tool_configs m)).

(** The two globals of model.py. *)
Record globals := {
  remote_tools_manager : option RemoteToolsManager;
  remote_tools : list lc_tool
}.

(** [initialize_remote_tools]: a new manager replaces the global one
    before anything is asked of the server.  [net] is the list of
    requests sent so far. *)
Definition initialize_remote_tools `{Runtime} (srv : server) (base_url : string)
    (g : globals) (net : list request) : globals * list request * bool :=
  let s0 := {| self := init base_url; sent := net |} in
  let keep s := {| remote_tools_manager := Some (self s);
                   remote_tools := remote_tools g |} in
  match health_check srv s0 with
  | (s1, Return true) =>
      match discover_tools srv s1 with
      | (s2, Return true) =>
          let g2 := {| remote_tools_manager := Some (self s2);
                       remote_tools := get_tools (self s2) |} in
          match list_available_tools (self s2) with
          | Return available_tools => (g2, sent s2, true)
          | Raise e => (g2, sent s2, false)
          end
      | (s2, _) => (keep s2, sent s2, false)
      end
  | (s1, _) => (keep s1, sent s1, false)
  end.

(** *** Vocabulary *)

(** An entry from which [_register_tools] builds a tool: an object with
    a string name and a description that langchain accepts. *)
Definition tool_of `{Runtime} (entry : json) : option lc_tool :=
  match _create_langchain_tool entry with
  | Return t => Some t
  | Raise _ => None
  end.

(** The tools built from a listing, entry by entry. *)
Definition tools_of `{Runtime} (entries : list json) : list lc_tool :=
  omap tool_of entries.

(** The manager that a first discovery of [entries] leaves. *)
Definition loaded `{Runtime} (base_url : string) (entries : list json)
    : RemoteToolsManager :=
  {| base_url := base_url; tools := tools_of entries;
     tool_configs := replaced_by entries |}.

(** An entry that [list_available_tools] can describe. *)
Definition described (entry : json) : Prop :=
  exists item, describe entry = Return item.

(** The last entry of a listing that is stored under [k]. *)
Definition last_named (k : key) (entries : list json) : option json :=
  last (List.filter (fun e => bool_decide (config_key e = Some k)) entries).

(** A text that reports success, and one that reports failure. *)
Definition marked_ok (text : string) : bool := String.prefix "✅" text.
Definition marked_failed (text : string) : bool := String.prefix "❌" text.

(** **** Sample data *)

(** An entry with a name and no description. *)
Definition nameless_purpose : json :=
  JDict [("name", JStr "archive"); ("endpoint", JStr "/gmail/archive");
         ("method", JStr "POST")]%string.

(** A second descriptor for the name of [send_email]. *)
Definition send_email_v2 : json :=
  JDict [("name", JStr "send_email");
         ("description", JStr "Send an email with attachments");
         ("endpoint", JStr "/gmail/v2/send"); ("method", JStr "POST")]%string.

Definition healthy (entries : list json) : server :=
  fun r =>
    match r with
    | GET url _ _ =>
        if String.eqb url "http://localhost:8000/health"
        then Return {| status_code := 200; text := "ok"; body := None |}
        else listing_of entries r
    | POST _ _ _ => Raise ConnectionError
    end.

Definition no_globals : globals :=
  {| remote_tools_manager := None; remote_tools := [] |}.

End RemoteView.

(** ** backend/tools/localtools.py: creating and listing reminders *)
Module ReminderTools.
Import Reminders RemindersSpec.

Definition second : Z := 1000000.
Definition hour : Z := 60 * minute.
Definition day : Z := 24 * hour.

(** One past the last instant that [datetime] can hold (the end of the
    year 9999). *)
Definition instant_end : Z := 3652059 * day.

Definition OverflowError : exn := OtherException "OverflowError".
Definition IndexError : exn := OtherException "IndexError".

(** [t + timedelta(microseconds=d)]: raises [OverflowError] outside the
    range of [datetime]. *)
Definition plus (t d : Z) : outcome Z :=
  if (0 <=? t + d) && (t + d <? instant_end) then Return (t + d)
  else Raise OverflowError.

(** [t.replace(hour=h, minute=m, second=0, microsecond=0)] *)
Definition replace_hm (t h m : Z) : outcome Z :=
  if (0 <=? h) && (h <=? 23) && (0 <=? m) && (m <=? 59)
  then Return (t / day * day + h * hour + m * minute)
  else Raise ValueError.

(** *** Reading numbers and clock times *)

Definition is_digit (c : ascii) : bool :=
  let n := nat_of_ascii c in ((48 <=? n) && (n <=? 57))%nat.

Definition digit_value (c : ascii) : Z := Z.of_nat (nat_of_ascii c) - 48.

(** The digits of [int]'s argument after sign and blanks; a single
    underscore may stand between two digits. *)
Fixpoint digits_value (acc : Z) (after_digit : bool) (s : string) : option Z :=
  match s with
  | EmptyString => if after_digit then Some acc else None
  | String c s' =>
      if is_digit c then digits_value (acc * 10 + digit_value c) true s'
      else if Ascii.eqb c "_" && after_digit then digits_value acc false s'
      else None
  end.

(** [int(s)] for a string: [None] when it raises [ValueError]. *)
Definition py_int (s : string) : option Z :=
  match strip s with
  | String "+" s' => digits_value 0 false s'
  | String "-" s' => Z.opp <$> digits_value 0 false s'
  | s' => digits_value 0 false s'
  end.

(** [s.split(sep)] for a one-character [sep]. *)
Fixpoint split_on (sep : ascii) (cur : string) (s : string) : list string :=
  match s with
  | EmptyString => [cur]
  | String c s' =>
      if Ascii.eqb c sep then cur :: split_on sep "" s'
      else split_on sep (cur +:+ String c "") s'
  end.

(** [s.split(" ", 1)[1]]: what follows the first blank. *)
Fixpoint after_blank (s : string) : outcome string :=
  match s with
  | EmptyString => Raise IndexError
  | String c s' => if Ascii.eqb c " " then Return s' else after_blank s'
  end.

(** [hour, minute = map(int, time_part.split(":"))] *)
Definition parse_clock (time_part : string) : outcome (Z * Z) :=
  match split_on ":" "" time_part with
  | [h; m] =>
      match py_int h, py_int m with
      | Some h, Some m => Return (h, m)
      | _, _ => Raise ValueError
      end
  | _ => Raise ValueError
  end.

(** *** The pattern [in (\d+) (seconds|minutes|hours)], matched at the
    start of the string without regard to letter case *)

Inductive unit_of_time := Seconds | Minutes | Hours.

Definition unit_length (u : unit_of_time) : Z :=
  match u with
  | Seconds => second
  | Minutes => minute
  | Hours => hour
  end.

Fixpoint span_digits (s : string) : string * string :=
  match s with
  | EmptyString => (EmptyString, EmptyString)
  | String c s' =>
      if is_digit c
      then let '(ds, rest) := span_digits s' in (String c ds, rest)
      else (EmptyString, s)
  end.

Definition match_unit (s : string) : option unit_of_time :=
  if String.prefix "seconds" (lower s) then Some Seconds
  else if String.prefix "minutes" (lower s) then Some Minutes
  else if String.prefix "hours" (lower s) then Some Hours
  else None.

Definition match_relative (s : string) : option (Z * unit_of_time) :=
  match s with
  | String i (String n (String b rest)) =>
      if Ascii.eqb (lower_char i) "i" && Ascii.eqb (lower_char n) "n"
         && Ascii.eqb b " "
      then
        match span_digits rest with
        | (EmptyString, _) => None
        | (ds, String b' rest') =>
            if Ascii.eqb b' " " then
              match digits_value 0 false ds, match_unit rest' with
              | Some value, Some u => Some (value, u)
              | _, _ => None
              end
            else None
        | (_, EmptyString) => None
        end
      else None
  | _ => None
  end.

(** *** [create_reminder] *)

(** The instant that [datetime_str] asks for at [now], or the exception
    of the branch that reads it.  A number that [timedelta] or the sum
    cannot hold raises [OverflowError]; a number of so many digits that
    [int] itself refuses it is not told apart from that. *)
Definition remind_time_of `{Calendar} (now : Z) (datetime_str : string)
    : outcome Z :=
  match match_relative datetime_str with
  | Some (value, u) => plus now (value * unit_length u)
  | None =>
      if String.prefix "today" (lower datetime_str) then
        match after_blank datetime_str with
        | Raise e => Raise e
        | Return time_part =>
            match parse_clock time_part with
            | Raise e => Raise e
            | Return (h, m) =>
                match replace_hm now h m with
                | Raise e => Raise e
                | Return remind_time =>
                    if remind_time <=? now then plus remind_time day
                    else Return remind_time
                end
            end
        end
      else if String.prefix "tomorrow" (lower datetime_str) then
        match after_blank datetime_str with
        | Raise e => Raise e
        | Return time_part =>
            match parse_clock time_part with
            | Raise e => Raise e
            | Return (h, m) =>
                match plus now day with
                | Raise e => Raise e
                | Return next => replace_hm next h m
                end
            end
        end
      else strptime datetime_str
  end.

(** The dict that the tool receives: the keys that are present, as
    strings. *)
Record input_data := {
  in_task : option string;
  in_datetime : option string;
  in_description : option string
}.

Definition msg_created `{Calendar} (task : string) (remind_time : Z) : string :=
  "✅ Reminder created: '" +:+ task +:+ "' on " +:+ strftime_at remind_time.

Definition msg_not_created `{Calendar} (e : exn) : string :=
  "❌ Error creating reminder: " +:+ exn_text e.

(** [create_reminder] at instant [now].  A [datetime] is never false, so
    the branch that reports an unparsed time is not reached. *)
Definition create_reminder `{Calendar} (now : Z) (input : input_data)
    (f : file_state) : string * file_state :=
  match in_task input with
  | None => (msg_not_created (KeyError "task"), f)
  | Some task =>
      match in_datetime input with
      | None => (msg_not_created (KeyError "datetime"), f)
      | Some datetime_str =>
          let description := default ""%string (in_description input) in
          match remind_time_of now datetime_str with
          | Raise e => (msg_not_created e, f)
          | Return remind_time =>
              let reminders := load_reminders f in
              let new_reminder :=
                {| id := Z.of_nat (length reminders) + 1;
                   task := task;
                   description := description;
                   datetime := strftime_minutes (remind_time / minute);
                   created_at := strftime_minutes (now / minute);
                   completed := false;
                   notified := Some false |} in
              (msg_created task remind_time,
               save_reminders (reminders ++ [new_reminder]) f)
          end
      end
  end.

(** The body of the loop of [list_reminders]: one line is added to
    [result]. *)
Definition line (result : string) (reminder : reminder) : string :=
  (result +:+ "  " +:+ str_of_int (id reminder) +:+ ". " +:+
   task reminder +:+ " - " +:+ datetime reminder +:+ nl)%string.

(** [list_reminders] *)
Definition list_reminders (f : file_state) : string :=
  let reminders := load_reminders f in
  let active_reminders := List.filter (fun r => negb (completed r)) reminders in
  match active_reminders with
  | [] => "📅 No active reminders found."%string
  | _ => foldl line ("📅 Active Reminders:" +:+ nl)%string active_reminders
  end.

(** *** Vocabulary *)

(** The ids count the reminders from 1 in store order. *)
Definition numbered (l : list reminder) : Prop :=
  map id l = map Z.of_nat (seq 1 (length l)).

(** What the tool and the scheduler do to the store, in some order. *)
Inductive event :=
| Create (now : Z) (input : input_data)
| Cycle (now : Z).

Definition step `{Calendar} (f : file_state) (e : event) : file_state :=
  match e with
  | Create now input => snd (create_reminder now input f)
  | Cycle now => store (scheduler_cycle now f)
  end.

(** A reminder without its [notified] flag. *)
Definition unflagged (r : reminder) : reminder :=
  {| id := id r; task := task r; description := description r;
     datetime := datetime r; created_at := created_at r;
     completed := completed r; notified := None |}.

(** **** Sample data *)

Definition ask (task when : string) : input_data :=
  {| in_task := Some task; in_datetime := Some when; in_description := None |}.

(** The first day of 2024, 45 seconds into minute 10. *)
Definition new_year : Z := year_2024 * minute.
Definition quarter_to : Z := new_year + 10 * minute + 45 * second.

End ReminderTools.

(** ** backend/tools/localtools.py: running shell commands *)
Module Shell.

(** What [process.communicate()] and [process.returncode] give. *)
Record process := {
  out : string;
  err : string;
  returncode : Z
}.

(** The dict that [execute_command] returns. *)
Record result := {
  stdout : string;
  stderr : string;
  return_code : Z
}.

(** The operating system: what [subprocess.Popen(command, shell=True)]
    and [communicate] give for a command, and [str(e)] of what they
    raise. *)
Class System := {
  popen : string -> outcome process;
  error_text : exn -> string
}.





(** *** Vocabulary *)


(** **** Sample data: a system on which every command succeeds and
    prints its own text. *)
Definition echo : System :=
  {| popen := fun command =>
       Return {| out := command; err := ""; returncode := 0 |};
     error_text := fun _ => "<exception>"%string |}.

End Shell.

(** ** backend/model.py: answering a command *)
Module Assistant.
Import Context ContextSpec ContextView Eff Remote RemoteSpec RemoteView.

(** What a command can read and change: the two globals of the remote
    tools, the one context manager with its file, and the requests sent
    so far. *)
Record env := {
  g : globals;
  context_manager : ContextManager;
  context_store : world;
  net : list request
}.

(** [agent.invoke] on the system prompt and the command.  The prompt is
    a fixed text into which [remote_status], the number of tools and the
    tool descriptions are put; the run may call any tool, so it may
    change whatever a tool can reach.  The answer is the content of the
    last message, [None] when the result or its list of messages is
    empty; an exception of the run, or of reading the content, is
    raised. *)
Definition agent : Type :=
  string -> string -> env -> env * outcome (option string).

Definition msg_empty : string :=
  "Sorry, I couldn't process that. The agent returned an empty response.".

Definition msg_error `{Runtime} (e : exn) : string :=
  ("Sorry, I encountered an error: " +:+ str_exn e)%string.

(** [context_manager.add_conversation_turn(command, response)] *)
Definition remember (now command response : string) (a : env) : env :=
  let '(cm, w) :=
    add_conversation_turn now command response "general"
      (context_manager a, context_store a) in
  {| g := g a; context_manager := cm; context_store := w; net := net a |}.

(** ["available" if (remote_tools_manager and
    remote_tools_manager.health_check()) else "unavailable"], with the
    requests sent so far. *)
Definition remote_status_of (srv : server) (a : env) : string * list request :=
  match remote_tools_manager (g a) with
  | Some m =>
      match health_check srv {| self := m; sent := net a |} with
      | (s, Return true) => ("available"%string, sent s)
      | (s, _) => ("unavailable"%string, sent s)
      end
  | None => ("unavailable"%string, net a)
  end.

(** [process_voice_command]; [now] is the timestamp of the turn that is
    recorded.  The summary and the relevant context are computed and go
    nowhere. *)
Definition process_voice_command `{Runtime} (srv : server) (agent : agent)
    (now command : string) (a : env) : string * env :=
  let context_summary := get_context_summary (context_manager a) in
  let relevant_context := get_relevant_context (context_manager a) command in
  let '(remote_status, net1) := remote_status_of srv a in
  let a1 := {| g := g a; context_manager := context_manager a;
               context_store := context_store a; net := net1 |} in
  let available_remote :=
    match remote_tools_manager (g a), remote_tools (g a) with
    | Some m, _ :: _ => list_available_tools m
    | _, _ => Return []
    end in
  match available_remote with
  | Raise e =>
      let error_response := msg_error e in
      (error_response, remember now command error_response a1)
  | Return _ =>
      match agent remote_status command a1 with
      | (a2, Raise e) =>
          let error_response := msg_error e in
          (error_response, remember now command error_response a2)
      | (a2, Return None) => (msg_empty, a2)
      | (a2, Return (Some response)) =>
          (response, remember now command response a2)
      end
  end.

(** *** Vocabulary *)

(** The turn that records [command] and [reply] at [now]. *)
Definition turn_for (now command reply : string) (a : env) : ConversationTurn :=
  {| timestamp := now; user_input := command; assistant_response := reply;
     session_id := current_session_id (context_manager a);
     context_type := "general" |}.

(** **** Sample data *)

(** An agent that repeats the command and calls no tool. *)
Definition parrot : agent := fun _ command a => (a, Return (Some command)).

(** An agent whose run clears the session and calls a remote tool
    before it answers. *)
Definition busy : agent :=
  fun _ command a =>
    ({| g := g a;
        context_manager := clear_session "20240101_100000" (context_manager a);
        context_store := context_store a;
        net := net a ++ [POST "http://localhost:8000/gmail/send" [] 30] |},
     Return (Some command)).

End Assistant.

Module StringFacts.
Import ContextSpec RemoteSpec.

Lemma append_cons c (w b : string) :
  (String c w +:+ b)%string = String c (w +:+ b)%string.
Proof. reflexivity. Qed.

Lemma prefix_spec w : forall s,
  String.prefix w s = true <-> exists b, s = (w +:+ b)%string.
Proof.
  induction w as [|c w IH]; intros s.
  - destruct s; cbn; split; eauto.
  - destruct s as [|c' s]; cbn [String.prefix].
    + split; [discriminate|intros [b Hb]; discriminate].
    + destruct (ascii_dec c c') as [->|Hne].
      * rewrite IH. split; intros [b Hb]; exists b.
        -- rewrite Hb. reflexivity.
        -- rewrite append_cons in Hb. injection Hb. auto.
      * split; [discriminate|]. intros [b Hb].
        rewrite append_cons in Hb. congruence.
Qed.



Lemma append_inv_head (a b c : string) :
  (a +:+ b)%string = (a +:+ c)%string -> b = c.
Proof.
  induction a as [|x a IH]; intros E; [exact E|].
  rewrite !append_cons in E. injection E. exact IH.
Qed.

Lemma occurrences_append c (a b : string) :
  occurrences c (a +:+ b) = (occurrences c a + occurrences c b)%nat.
Proof.
  induction a as [|x a IH]; [reflexivity|].
  rewrite append_cons. cbn [occurrences]. rewrite IH. lia.
Qed.
End StringFacts.

(** ** Properties of the context store *)
Module ContextProofs.
Import Context ContextSpec StringFacts.

(** *** Slices and the bounded window *)

Lemma slice_from_neg {A} (n : Z) (l : list A) :
  0 < n -> slice_from (- n) l = last_n (Z.to_nat n) l.
Proof.
  intros Hn. unfold slice_from, last_n.
  destruct (Z.ltb_spec (- n) 0) as [_|?]; [|lia].
  f_equal. lia.
Qed.

Lemma slice_from_zero {A} (l : list A) : slice_from (- 0) l = l.
Proof. unfold slice_from. simpl. rewrite Z.min_l by lia. reflexivity. Qed.

Lemma last_n_all {A} (n : nat) (l : list A) :
  (length l <= n)%nat -> last_n n l = l.
Proof.
  intros Hl. unfold last_n.
  replace (length l - n)%nat with 0%nat by lia. reflexivity.
Qed.

Lemma length_last_n {A} (n : nat) (l : list A) :
  length (last_n n l) = Nat.min n (length l).
Proof. unfold last_n. rewrite length_drop. lia. Qed.

Lemma last_n_app {A} (n : nat) (a b : list A) :
  last_n n (last_n n a ++ b) = last_n n (a ++ b).
Proof.
  unfold last_n at 1 3. rewrite !length_app, length_last_n.
  unfold last_n. remember (length a - n)%nat as k eqn:Ek.
  assert (Hk : length (take k a) = k) by (rewrite length_take; lia).
  transitivity (drop (length a + length b - n) (take k a ++ (drop k a ++ b))).
  - rewrite (drop_app_ge (take k a)) by lia. f_equal. lia.
  - rewrite app_assoc, take_drop. reflexivity.
Qed.

Lemma deque_append_last_n {A} (d : list A) (x : A) :
  (length d <= maxlen)%nat -> deque_append d x = last_n maxlen (d ++ [x]).
Proof.
  intros Hd. unfold deque_append, last_n. rewrite length_app. simpl.
  destruct (Nat.ltb_spec maxlen (length d + 1)).
  - f_equal. unfold maxlen in *. lia.
  - replace (length d + 1 - maxlen)%nat with 0%nat by lia. reflexivity.
Qed.

Lemma deque_append_bound {A} (d : list A) (x : A) :
  (length d <= maxlen)%nat -> (length (deque_append d x) <= maxlen)%nat.
Proof.
  intros Hd. rewrite deque_append_last_n, length_last_n by assumption. lia.
Qed.

Lemma deque_extend_last_n {A} (xs d : list A) :
  (length d <= maxlen)%nat -> deque_extend d xs = last_n maxlen (d ++ xs).
Proof.
  unfold deque_extend. revert d. induction xs as [|x xs IH]; intros d Hd; simpl.
  - rewrite app_nil_r, last_n_all; auto.
  - rewrite IH by (apply deque_append_bound; assumption).
    rewrite deque_append_last_n, last_n_app by assumption.
    rewrite <- app_assoc. reflexivity.
Qed.

Lemma window_ok_init sid f m w : window_ok (init sid f m w).
Proof.
  unfold window_ok, init, _load_context.
  destruct (file w) as [| |d|other|[p|] other]; cbn;
    try (unfold maxlen; lia).
  destruct (cd_user_profile d), (cd_conversations d); cbn;
    try (unfold maxlen; lia);
    rewrite deque_extend_last_n, length_last_n by (cbn; unfold maxlen; lia);
    lia.
Qed.

(** *** One recorded turn *)

Lemma add_turn_session now u r ct cm w :
  current_session (fst (add_conversation_turn now u r ct (cm, w))) =
  deque_append (current_session cm)
               (turn_of (current_session_id cm)
                  {| ti_now := now; ti_user_input := u; ti_response := r;
                     ti_context_type := ct |}).
Proof.
  unfold add_conversation_turn. simpl.
  match goal with |- context [if ?b then _ else _] => destruct b end; reflexivity.
Qed.

Lemma add_turn_history now u r ct cm w :
  history (fst (add_conversation_turn now u r ct (cm, w))) =
  history cm ++ [turn_of (current_session_id cm)
                   {| ti_now := now; ti_user_input := u; ti_response := r;
                      ti_context_type := ct |}].
Proof.
  unfold add_conversation_turn. simpl.
  match goal with |- context [if ?b then _ else _] => destruct b end; reflexivity.
Qed.

Lemma add_turn_session_id now u r ct cm w :
  current_session_id (fst (add_conversation_turn now u r ct (cm, w))) =
  current_session_id cm.
Proof.
  unfold add_conversation_turn. simpl.
  match goal with |- context [if ?b then _ else _] => destruct b end; reflexivity.
Qed.

Lemma add_turn_commands now u r ct cm w :
  frequently_used_commands
    (user_profile (fst (add_conversation_turn now u r ct (cm, w)))) =
  foldl (update_keyword u) (frequently_used_commands (user_profile cm))
        command_keywords.
Proof.
  unfold add_conversation_turn. simpl.
  match goal with |- context [if ?b then _ else _] => destruct b end; reflexivity.
Qed.

Lemma window_ok_add now u r ct cm w :
  window_ok cm -> window_ok (fst (add_conversation_turn now u r ct (cm, w))).
Proof.
  unfold window_ok. intros Hok. rewrite add_turn_session.
  apply deque_append_bound. exact Hok.
Qed.

Lemma record_turns_window ts : forall cm w,
  window_ok cm ->
  let s := record_turns (cm, w) ts in
  current_session (fst s) =
    last_n maxlen (current_session cm ++ map (turn_of (current_session_id cm)) ts) /\
  history (fst s) = history cm ++ map (turn_of (current_session_id cm)) ts /\
  current_session_id (fst s) = current_session_id cm.
Proof.
  unfold record_turns, window_ok.
  induction ts as [|t ts IH]; intros cm w Hok; cbn [foldl map fst].
  - rewrite !app_nil_r, last_n_all by assumption. auto.
  - destruct t as [now u r ct].
    change (record_turn (cm, w) _) with (add_conversation_turn now u r ct (cm, w)).
    destruct (add_conversation_turn now u r ct (cm, w)) as [cm1 w1] eqn:E.
    pose proof (add_turn_session now u r ct cm w) as Hs.
    pose proof (add_turn_history now u r ct cm w) as Hh.
    pose proof (add_turn_session_id now u r ct cm w) as Hi.
    rewrite E in Hs, Hh, Hi. simpl in Hs, Hh, Hi.
    destruct (IH cm1 w1) as (IH1 & IH2 & IH3).
    { rewrite Hs. apply deque_append_bound. assumption. }
    rewrite IH1, IH2, IH3, Hs, Hh, Hi.
    rewrite deque_append_last_n, last_n_app by assumption.
    rewrite <- !app_assoc. auto.
Qed.

(** C5. After more turns than the window holds have been recorded, the
    session window is exactly the last [maxlen] (five) of the recorded
    turns, in the order of the calls: the older ones have been evicted
    from the front.  The full history keeps them all. *)
Theorem session_window_keeps_most_recent cm w ts :
  window_ok cm ->
  (maxlen < length ts)%nat ->
  let s := record_turns (cm, w) ts in
  let recorded := map (turn_of (current_session_id cm)) ts in
  current_session (fst s) = last_n maxlen recorded /\
  length (current_session (fst s)) = maxlen /\
  history (fst s) = history cm ++ recorded.
Proof.
  intros Hok Hlen s recorded.
  destruct (record_turns_window ts cm w Hok) as (Hs & Hh & _).
  fold s in Hs, Hh. fold recorded in Hs, Hh.
  assert (Hw : current_session (fst s) = last_n maxlen recorded).
  { rewrite Hs. unfold last_n. rewrite length_app.
    rewrite drop_app_ge by (unfold recorded; rewrite length_map; lia).
    f_equal. unfold recorded. rewrite length_map. lia. }
  repeat split; [exact Hw | | exact Hh].
  rewrite Hw, length_last_n. unfold recorded. rewrite length_map. lia.
Qed.

(** Six turns recorded by a new manager: the window holds turns two to
    six. *)
Lemma session_window_keeps_most_recent_witness :
  current_session (fst (record_turns (fresh, no_file) six_turns)) =
    map (turn_of "20240101_090000")
        [said "two" "2"; said "three" "3"; said "four" "4"; said "five" "5";
         said "six" "6"] /\
  length (current_session (fst (record_turns (fresh, no_file) six_turns))) = maxlen /\
  history (fst (record_turns (fresh, no_file) six_turns)) =
    map (turn_of "20240101_090000") six_turns.
Proof.
  apply (session_window_keeps_most_recent fresh no_file six_turns).
  - unfold window_ok. vm_compute. lia.
  - vm_compute. lia.
Defined.

(** *** Autosave *)

Lemma save_context_writes cm w :
  file w <> Corrupt ->
  file (_save_context cm w) <> Corrupt /\
  length (writes (_save_context cm w)) = S (length (writes w)).
Proof.
  intros Hf. unfold _save_context, write_file.
  destruct (file w); try congruence; simpl; rewrite length_app; simpl;
    split; try discriminate; lia.
Qed.

Lemma add_turn_writes now u r ct cm w :
  window_ok cm -> file w <> Corrupt ->
  let s := add_conversation_turn now u r ct (cm, w) in
  file (snd s) <> Corrupt /\
  length (writes (snd s)) =
    (length (writes w) +
     (if (maxlen <=? length (current_session cm) + 1)%nat then 1 else 0))%nat.
Proof.
  unfold window_ok. intros Hok Hf. unfold add_conversation_turn.
  cbn [current_session set_session set_history set_profile].
  rewrite deque_append_last_n, length_last_n, length_app by assumption.
  cbn [length]. unfold maxlen in *.
  destruct (save_context_writes
    (set_profile
      (set_profile
        (set_history
          (set_session cm
            (last_n 5 (current_session cm ++
               [{| timestamp := now; user_input := u; assistant_response := r;
                   session_id := current_session_id cm; context_type := ct |}])))
          (history cm ++
             [{| timestamp := now; user_input := u; assistant_response := r;
                 session_id := current_session_id cm; context_type := ct |}]))
        (set_last_interaction (user_profile cm) now))
      (_update_user_preferences u (set_last_interaction (user_profile cm) now)))
    w Hf) as [Hs1 Hs2].
  remember (length (current_session cm)) as n eqn:En.
  assert (Hn : (n = 0 \/ n = 1 \/ n = 2 \/ n = 3 \/ n = 4 \/ n = 5)%nat) by lia.
  destruct Hn as [->|[->|[->|[->|[->| ->]]]]]; cbn; unfold maxlen;
    first [ split; [exact Hs1 | rewrite Hs2; lia] | split; [exact Hf | lia] ].
Qed.

Lemma record_turns_writes ts : forall cm w,
  window_ok cm -> file w <> Corrupt ->
  length (writes (snd (record_turns (cm, w) ts))) =
    (length (writes w) +
     ((length (current_session cm) + length ts - 4) -
      (length (current_session cm) - 4)))%nat.
Proof.
  unfold record_turns.
  induction ts as [|t ts IH]; intros cm w Hok Hf; cbn [foldl length snd].
  - lia.
  - destruct t as [now u r ct].
    change (record_turn (cm, w) _) with (add_conversation_turn now u r ct (cm, w)).
    pose proof (add_turn_writes now u r ct cm w Hok Hf) as [Hf1 Hw1].
    pose proof (add_turn_session now u r ct cm w) as Hs.
    destruct (add_conversation_turn now u r ct (cm, w)) as [cm1 w1].
    cbn [fst snd] in *.
    assert (Hok1 : window_ok cm1).
    { unfold window_ok. rewrite Hs. apply deque_append_bound. exact Hok. }
    rewrite (IH cm1 w1 Hok1 Hf1), Hw1, Hs.
    rewrite deque_append_last_n, length_last_n, length_app by exact Hok.
    unfold window_ok, maxlen in *. cbn [length].
    destruct (Nat.leb_spec 5 (length (current_session cm) + 1)); lia.
Qed.

(** C3. Starting from an empty window over a readable store, the number
    of saves made while [ts] turns are recorded is [length ts - 4]: none
    during the first four turns, and one on the fifth turn and on every
    turn after it (two after six turns, where a save on every fifth turn
    would give one). *)
Theorem autosave_on_every_turn_after_the_fourth cm w ts :
  current_session cm = [] ->
  file w <> Corrupt ->
  length (writes (snd (record_turns (cm, w) ts))) =
    (length (writes w) + (length ts - 4))%nat.
Proof.
  intros Hs Hf. rewrite record_turns_writes; try assumption.
  - rewrite Hs. cbn [length]. lia.
  - unfold window_ok. rewrite Hs. cbn. unfold maxlen. lia.
Qed.

(** Six turns recorded by a new manager: two saves, on the fifth and on
    the sixth turn. *)
Lemma autosave_on_every_turn_after_the_fourth_witness :
  length (writes (snd (record_turns (fresh, no_file) six_turns))) = 2%nat.
Proof.
  apply (autosave_on_every_turn_after_the_fourth fresh no_file six_turns).
  - reflexivity.
  - discriminate.
Defined.

(** *** Preference learning *)

Lemma NoDup_command_keywords : NoDup command_keywords.
Proof. apply (bool_decide_unpack _). vm_compute. exact I. Qed.

Lemma commands_ok_length cs : commands_ok cs -> (length cs <= 6)%nat.
Proof.
  intros [Hnd Hin].
  apply (submseteq_length cs command_keywords).
  apply NoDup_submseteq; assumption.
Qed.

Lemma update_keyword_ok u cs k :
  commands_ok cs -> k ∈ command_keywords ->
  update_keyword u cs k = (if is_new u cs k then cs ++ [k] else cs) /\
  commands_ok (update_keyword u cs k).
Proof.
  intros Hok Hk. pose proof (commands_ok_length cs Hok) as Hlen.
  unfold update_keyword, is_new.
  destruct (contains k (lower u)); cbn [andb]; [|auto].
  destruct (bool_decide_reflect (k ∈ cs)) as [Hin|Hnin]; cbn [negb].
  - destruct (Nat.ltb_spec 10 (length cs)); [lia|auto].
  - split; [reflexivity|]. destruct Hok as [Hnd Hsub]. split.
    + apply NoDup_app. repeat split; [assumption| |apply NoDup_singleton].
      intros x Hx Hx'. apply list_elem_of_singleton in Hx'. subst. auto.
    + intros x Hx. apply elem_of_app in Hx as [Hx|Hx]; [auto|].
      apply list_elem_of_singleton in Hx. subst. assumption.
Qed.

Lemma update_keywords_ok u ks : forall cs,
  NoDup ks -> (forall k, k ∈ ks -> k ∈ command_keywords) -> commands_ok cs ->
  foldl (update_keyword u) cs ks = cs ++ List.filter (is_new u cs) ks /\
  commands_ok (foldl (update_keyword u) cs ks).
Proof.
  induction ks as [|k ks IH]; intros cs Hnd Hsub Hok; cbn [foldl List.filter].
  - rewrite app_nil_r. auto.
  - apply NoDup_cons in Hnd as [Hk Hnd].
    destruct (update_keyword_ok u cs k Hok) as [E Hok1];
      [apply Hsub, elem_of_cons; auto|].
    destruct (IH (update_keyword u cs k) Hnd) as [E1 Hok2];
      [intros k' Hk'; apply Hsub, elem_of_cons; auto|assumption|].
    split; [|assumption]. rewrite E1, E.
    destruct (is_new u cs k) eqn:Hnew.
    + rewrite <- app_assoc. cbn [app]. do 2 f_equal.
      apply List.filter_ext_in. intros a Ha. unfold is_new. f_equal. f_equal.
      apply list_elem_of_In in Ha.
      apply bool_decide_ext. rewrite elem_of_app, list_elem_of_singleton.
      split; [|auto]. intros [? | ->]; [assumption|contradiction].
    + reflexivity.
Qed.

(** C6 (as the code has it). In a manager whose command list holds
    distinct keywords of the vocabulary, recording a turn appends to the
    list, in vocabulary order, the keywords that the input uses and that
    the list does not have yet; entries already present keep their
    place (the order is that of first use).  The list stays a list of
    distinct vocabulary keywords, so it never has more than 10 entries. *)
Theorem commands_keep_first_use_order now u r ct cm w :
  commands_ok (frequently_used_commands (user_profile cm)) ->
  let before := frequently_used_commands (user_profile cm) in
  let after :=
    frequently_used_commands
      (user_profile (fst (add_conversation_turn now u r ct (cm, w)))) in
  after =
    before ++
    List.filter (fun k => negb (bool_decide (k ∈ before))) (used_keywords u) /\
  commands_ok after /\
  (length after <= 10)%nat.
Proof.
  intros Hok before after.
  assert (E : after = foldl (update_keyword u) before command_keywords)
    by apply add_turn_commands.
  destruct (update_keywords_ok u command_keywords before
              NoDup_command_keywords (fun k H => H) Hok) as [E1 Hok1].
  rewrite <- E in E1, Hok1. repeat split; try apply Hok1.
  - rewrite E1. f_equal. unfold used_keywords.
    generalize command_keywords as ks. induction ks as [|k ks IH]; [reflexivity|].
    cbn [List.filter]. unfold is_new at 1.
    destruct (contains k (lower u)); cbn [andb List.filter]; [|exact IH].
    destruct (negb (bool_decide (k ∈ before))); rewrite IH; reflexivity.
  - pose proof (commands_ok_length after Hok1). lia.
Qed.

(** A new manager told to create and list: both keywords are learnt, in
    vocabulary order. *)
Lemma commands_keep_first_use_order_witness :
  frequently_used_commands
    (user_profile
       (fst (add_conversation_turn "2024-01-01T09:00:00"
               "list the files, then create one" "done" "general"
               (fresh, no_file)))) =
    ["create"; "list"]%string.
Proof.
  apply (commands_keep_first_use_order "2024-01-01T09:00:00"
           "list the files, then create one" "done" "general" fresh no_file).
  split; [apply NoDup_nil_2|].
  intros k Hk. apply elem_of_nil in Hk. contradiction.
Defined.

(** The list after "create", "write", and "create" again is
    [create; write]: the latest input used [create], and the list ends
    with [write]. *)
Lemma commands_not_most_recent_last :
  let s := record_turns (fresh, no_file)
             [said "create a note" "ok"; said "write it down" "ok";
              said "create another" "ok"] in
  frequently_used_commands (user_profile (fst s)) = ["create"; "write"]%string /\
  ~ most_recent_last "create another"
      (frequently_used_commands (user_profile (fst s))).
Proof.
  split; [vm_compute; reflexivity|].
  intros Hm. destruct Hm as (k & Hlast & Hk); [vm_compute; discriminate|].
  vm_compute in Hlast. injection Hlast as <-.
  vm_compute in Hk. apply list_elem_of_singleton in Hk. discriminate.
Qed.

(** Outside such profiles the list can grow past ten: the trim runs only
    for a keyword that is already present.  A list of ten other entries
    gets an eleventh. *)
Lemma commands_can_exceed_ten :
  length (foldl (update_keyword "create it")
                ["a"; "b"; "c"; "d"; "e"; "f"; "g"; "h"; "i"; "j"]%string
                command_keywords) = 11%nat.
Proof. vm_compute. reflexivity. Qed.

(** *** Relevance retrieval *)

Lemma scan_history_take words turns : forall acc,
  (length acc < 3)%nat ->
  scan_history words turns acc =
    take 3 (acc ++ List.filter
                     (fun turn => existsb (fun word => contains word (lower (user_input turn))) words)
                     turns).
Proof.
  induction turns as [|turn rest IH]; intros acc Hacc; cbn [scan_history List.filter].
  - rewrite app_nil_r, take_ge by lia. reflexivity.
  - destruct (existsb _ words).
    + destruct (Nat.leb_spec 3 (length (acc ++ [turn]))) as [H3|H3];
        rewrite length_app in H3; cbn [length] in H3.
      * set (more := List.filter _ rest).
        replace (acc ++ turn :: more) with ((acc ++ [turn]) ++ more)
          by (rewrite <- app_assoc; reflexivity).
        rewrite take_app_length'; [reflexivity|rewrite length_app; cbn; lia].
      * rewrite IH by (rewrite length_app; cbn; lia).
        rewrite <- app_assoc. reflexivity.
    + apply IH. assumption.
Qed.

Lemma scan_history_newest_three query history :
  rev (scan_history (split (lower query)) (rev history) []) =
  newest_three (token_occurs query) history.
Proof.
  rewrite scan_history_take by (cbn; lia). cbn [app].
  unfold newest_three, last_n.
  change (fun turn => existsb _ (split (lower query))) with (token_occurs query).
  rewrite filter_rev, firstn_rev, rev_involutive. reflexivity.
Qed.




(** *** Persistence *)

Lemma save_context_file cm w :
  file w <> Corrupt ->
  exists other,
    file (_save_context cm w) =
      Object {| cd_user_profile := Some (user_profile cm);
                cd_conversations :=
                  Some (slice_from (- max_history cm) (history cm));
                cd_other := other |}.
Proof.
  intros Hf. unfold _save_context, write_file.
  destruct (file w); try congruence; eexists; reflexivity.
Qed.

Lemma slice_from_nonempty {A} (n : Z) (l : list A) :
  0 <= n -> l <> [] -> slice_from (- n) l <> [].
Proof.
  intros Hn Hl E. apply (f_equal (@length _)) in E.
  destruct (Z.eq_dec n 0) as [->|Hn0].
  - rewrite slice_from_zero in E. destruct l; [congruence|discriminate].
  - rewrite slice_from_neg, length_last_n in E by lia.
    destruct l; [congruence|]. cbn [length] in E. lia.
Qed.

(** C9. Over a store that is absent or holds an object,
    [_save_context] followed by [_load_context] (into the manager that a
    later start builds, or into any other) gives back the saved profile,
    and as history the truncation window [history[-max_history:]] of the
    saved history, which for a positive [max_history] is its last
    [max_history] turns; the last five of them seed the window of the
    new manager. *)
Theorem save_then_load_round_trip cm w cm0 sid :
  file w <> Corrupt ->
  let w' := _save_context cm w in
  let kept := slice_from (- max_history cm) (history cm) in
  let cm' := init sid (context_file cm) (max_history cm) w' in
  (user_profile (_load_context cm0 w') = user_profile cm /\
   history (_load_context cm0 w') = kept) /\
  (user_profile cm' = user_profile cm /\
   history cm' = kept /\
   current_session cm' = last_n maxlen kept) /\
  (0 < max_history cm ->
   kept = last_n (Z.to_nat (max_history cm)) (history cm)).
Proof.
  intros Hf w' kept cm'.
  destruct (save_context_file cm w Hf) as [other E]. fold w' kept in E.
  unfold cm', init, _load_context. rewrite E.
  cbn [cd_user_profile cd_conversations user_profile history set_profile
       set_history set_session current_session].
  split; [split; reflexivity|]. split; [split; [reflexivity|split; [reflexivity|]]|].
  - rewrite deque_extend_last_n by (cbn; lia). cbn [app].
    change (-5) with (Z.opp 5). rewrite slice_from_neg by lia.
    change (Z.to_nat 5) with maxlen.
    pose proof (last_n_app maxlen kept []) as E5.
    rewrite !app_nil_r in E5. exact E5.
  - intros Hm. apply slice_from_neg. exact Hm.
Qed.

(** Six turns saved with a cap of four and loaded at the next start. *)
Lemma save_then_load_round_trip_witness :
  let cm := fst (record_turns
                   (init "20240101_090000" "context_memory.json" 4 no_file,
                    no_file) six_turns) in
  let cm' := init "20240102_090000" "context_memory.json" 4
               (_save_context cm no_file) in
  user_profile cm' = user_profile cm /\
  history cm' =
    map (turn_of "20240101_090000")
        [said "three" "3"; said "four" "4"; said "five" "5"; said "six" "6"].
Proof.
  intros cm cm'.
  destruct (save_then_load_round_trip cm no_file fresh "20240102_090000")
    as (_ & (Hp & Hh & _) & _).
  - discriminate.
  - split; [exact Hp|exact Hh].
Defined.

(** C10. [clean_context_file] empties the file, the window and the
    profile and takes a new session id, and leaves the history as it
    was: the next [_save_context] writes the old turns (the last
    [max_history] of them) into the file again. *)
Theorem reset_keeps_history_in_memory sid cm w :
  history cm <> [] ->
  0 <= max_history cm ->
  let s := clean_context_file sid (cm, w) in
  file (snd s) = Object empty_data /\
  current_session (fst s) = [] /\
  user_profile (fst s) = UserProfile_default /\
  current_session_id (fst s) = sid /\
  history (fst s) = history cm /\
  file (_save_context (fst s) (snd s)) =
    Object {| cd_user_profile := Some UserProfile_default;
              cd_conversations :=
                Some (slice_from (- max_history cm) (history cm));
              cd_other := [] |} /\
  slice_from (- max_history cm) (history cm) <> [].
Proof.
  intros Hh Hm s. repeat split; try reflexivity.
  apply slice_from_nonempty; assumption.
Qed.

(** Six turns, a reset, and a save: the file holds the six turns again. *)
Lemma reset_keeps_history_in_memory_witness :
  let cm := fst (record_turns (fresh, no_file) six_turns) in
  let s := clean_context_file "20240102_090000" (cm, no_file) in
  history (fst s) = map (turn_of "20240101_090000") six_turns /\
  file (_save_context (fst s) (snd s)) =
    Object {| cd_user_profile := Some UserProfile_default;
              cd_conversations :=
                Some (map (turn_of "20240101_090000") six_turns);
              cd_other := [] |}.
Proof.
  intros cm s.
  destruct (reset_keeps_history_in_memory "20240102_090000" cm no_file)
    as (_ & _ & _ & _ & Hh & Hf & _).
  - vm_compute. discriminate.
  - vm_compute. discriminate.
  - split; [exact Hh|exact Hf].
Defined.
End ContextProofs.

(** ** Properties of the capability registry *)
Module RemoteProofs.
Import Eff Remote RemoteSpec StringFacts.

Section WithRuntime.
Context `{Runtime}.

(** *** Registration *)

Lemma register_tool_dict d s :
  exists s',
    register_tool (JDict d) s = (s', Return tt) /\
    tool_configs (self s') =
      match config_key (JDict d) with
      | Some k => <[k := JDict d]> (tool_configs (self s))
      | None => tool_configs (self s)
      end /\
    sent s' = sent s /\ base_url (self s') = base_url (self s).
Proof.
  unfold register_tool, config_key, try_except, bind, lift, modify, ret.
  destruct (getitem (JDict d) "name") as [tool_name|e]; cbn.
  - destruct (hash_key tool_name) as [k|e]; cbn.
    + destruct (_create_langchain_tool (JDict d)) as [t|e]; cbn;
        eexists; repeat split.
    + eexists; repeat split.
  - eexists; repeat split.
Qed.

Lemma register_tools_dicts entries : forall s,
  Forall is_dict entries ->
  exists s',
    for_each entries register_tool s = (s', Return tt) /\
    tool_configs (self s') = merge_configs entries (tool_configs (self s)) /\
    sent s' = sent s /\ base_url (self s') = base_url (self s).
Proof.
  induction entries as [|entry entries IH]; intros s Hd.
  - exists s. repeat split.
  - apply Forall_cons in Hd as [Hentry Hd].
    destruct entry as [| | | | |d]; try contradiction.
    destruct (register_tool_dict d s) as (s1 & E1 & C1 & S1 & B1).
    destruct (IH s1 Hd) as (s2 & E2 & C2 & S2 & B2).
    exists s2. cbn [for_each]. unfold bind at 1. rewrite E1, E2.
    repeat split; [|congruence|congruence].
    rewrite C2, C1. unfold merge_configs. cbn [foldl]. reflexivity.
Qed.

Lemma merge_configs_other entries : forall (m : gmap key json) k,
  (forall e, e ∈ entries -> config_key e <> Some k) ->
  merge_configs entries m !! k = m !! k.
Proof.
  unfold merge_configs.
  induction entries as [|entry entries IH]; intros m k Hk; cbn [foldl].
  - reflexivity.
  - rewrite IH by (intros e He; apply Hk, elem_of_cons; auto).
    assert (Hne : config_key entry <> Some k) by (apply Hk, elem_of_cons; auto).
    destruct (config_key entry) as [k'|]; [|reflexivity].
    apply lookup_insert_ne. congruence.
Qed.

Lemma merge_configs_snoc entries entry (m : gmap key json) :
  merge_configs (entries ++ [entry]) m =
    match config_key entry with
    | Some k => <[k := entry]> (merge_configs entries m)
    | None => merge_configs entries m
    end.
Proof. unfold merge_configs. rewrite foldl_app. reflexivity. Qed.

Lemma merge_configs_named entries : forall (m : gmap key json) e k,
  e ∈ entries -> config_key e = Some k ->
  exists e', e' ∈ entries /\ config_key e' = Some k /\
             merge_configs entries m !! k = Some e'.
Proof.
  induction entries as [|entry entries IH] using rev_ind; intros m e k He Hk.
  - apply elem_of_nil in He. contradiction.
  - rewrite merge_configs_snoc.
    destruct (decide (config_key entry = Some k)) as [Hlast|Hlast].
    + exists entry. rewrite Hlast, lookup_insert_eq.
      split; [|split; reflexivity].
      apply elem_of_app. right. apply list_elem_of_singleton. reflexivity.
    + apply elem_of_app in He as [He|He].
      * destruct (IH m e k He Hk) as (e' & He' & Hk' & L).
        exists e'. repeat split; [apply elem_of_app; auto|assumption|].
        destruct (config_key entry) as [k'|]; [|exact L].
        rewrite lookup_insert_ne by congruence. exact L.
      * apply list_elem_of_singleton in He. subst. contradiction.
Qed.

(** *** Discovery *)

Lemma discover_tools_transport_failure srv s e :
  srv (listing s) = Raise e ->
  discover_tools srv s = (after_send s (listing s), Return false).
Proof.
  intros E. unfold discover_tools, try_except, bind, gets, send, ret.
  cbn. fold (listing s). rewrite E.
  destruct (is_ConnectionError e), (is_Timeout e); reflexivity.
Qed.

Lemma discover_tools_bad_status srv s r :
  srv (listing s) = Return r -> status_code r <> 200 ->
  discover_tools srv s = (after_send s (listing s), Return false).
Proof.
  intros E Hs. unfold discover_tools, try_except, bind, gets, send, ret.
  cbn. fold (listing s). rewrite E.
  destruct (Z.eqb_spec (status_code r) 200); [contradiction|reflexivity].
Qed.

Lemma discover_tools_success srv s r d entries :
  srv (listing s) = Return r -> status_code r = 200 ->
  body r = Some (JDict d) ->
  default (JList []) (assoc "tools" d) = JList entries ->
  Forall is_dict entries ->
  snd (discover_tools srv s) = Return true /\
  tool_configs (self (fst (discover_tools srv s))) =
    merge_configs entries (tool_configs (self s)).
Proof.
  intros E Hs Hb Ht Hd.
  destruct (register_tools_dicts entries (after_send s (listing s)) Hd)
    as (s' & Er & Ec & _).
  unfold discover_tools, try_except, bind, gets, send, ret, lift,
    _register_tools, response_json, get.
  cbn. fold (listing s). rewrite E, Hs, Hb. cbn. rewrite Ht. cbn.
  fold (after_send s (listing s)). unfold bind. rewrite Er. cbn.
  split; [reflexivity|exact Ec].
Qed.

(** C1 (as the code has it). A discovery that receives a 200 listing
    whose entries are objects reports success and stores each entry
    under its name INTO the existing descriptor set: a name that the
    listing does not use keeps the descriptor of the earlier discovery,
    a name that it uses gets an entry of the listing.  A discovery whose
    request raises (connection failure, timeout, any transport error)
    or is answered with another status reports failure and leaves the
    manager as it was. *)
Theorem discover_merges_into_existing_set srv s :
  (forall r d entries,
     srv (listing s) = Return r -> status_code r = 200 ->
     body r = Some (JDict d) ->
     default (JList []) (assoc "tools" d) = JList entries ->
     Forall is_dict entries ->
     let s' := fst (discover_tools srv s) in
     snd (discover_tools srv s) = Return true /\
     tool_configs (self s') = merge_configs entries (tool_configs (self s)) /\
     (forall k, (forall e, e ∈ entries -> config_key e <> Some k) ->
                tool_configs (self s') !! k = tool_configs (self s) !! k) /\
     (forall e k, e ∈ entries -> config_key e = Some k ->
                  exists e', e' ∈ entries /\ config_key e' = Some k /\
                             tool_configs (self s') !! k = Some e')) /\
  (forall e, srv (listing s) = Raise e ->
     snd (discover_tools srv s) = Return false /\
     self (fst (discover_tools srv s)) = self s) /\
  (forall r, srv (listing s) = Return r -> status_code r <> 200 ->
     snd (discover_tools srv s) = Return false /\
     self (fst (discover_tools srv s)) = self s).
Proof.
  split; [|split].
  - intros r d entries E Hs Hb Ht Hd s'.
    destruct (discover_tools_success srv s r d entries E Hs Hb Ht Hd) as [R C].
    fold s' in C. rewrite C. repeat split; [exact R| |].
    + intros k Hk. apply merge_configs_other. exact Hk.
    + intros e k He Hk. eapply merge_configs_named; eassumption.
  - intros e E. rewrite (discover_tools_transport_failure srv s e E). auto.
  - intros r E Hs. rewrite (discover_tools_bad_status srv s r E Hs). auto.
Qed.

(** *** Invocation *)

Lemma execute_absent srv tool_name kw s :
  tool_configs (self s) !! KStr tool_name = None ->
  _execute_remote_tool srv tool_name kw s =
    (s, Return (msg_exception tool_name (str_exn (KeyError tool_name)))).
Proof.
  intros E. unfold _execute_remote_tool, try_except, bind, lookup_config.
  rewrite E. reflexivity.
Qed.

Lemma execute_never_raises srv tool_name kw s :
  exists text, snd (_execute_remote_tool srv tool_name kw s) = Return text.
Proof.
  unfold _execute_remote_tool, try_except.
  match goal with |- context [match ?b s with _ => _ end] => destruct (b s) as [s' [a|e]] end.
  - eauto.
  - destruct (is_Timeout e); [|destruct (is_ConnectionError e)]; cbn; eauto.
Qed.

Lemma execute_registered srv tool_name kw s config endpoint method :
  tool_configs (self s) !! KStr tool_name = Some config ->
  getitem config "endpoint" = Return endpoint ->
  getitem config "method" = Return (JStr method) ->
  upper method = "POST"%string \/ upper method = "GET"%string ->
  let request := request_of (base_url (self s)) endpoint method kw in
  _execute_remote_tool srv tool_name kw s =
    (after_send s request, Return (answer_text tool_name (srv request))).
Proof.
  intros Ec Ee Em Hm request.
  unfold _execute_remote_tool, try_except, bind, lookup_config, lift, gets,
    upper_of, send, handle_response, ret, response_json.
  rewrite Ec, Ee, Em. subst request. unfold request_of, answer_text, after_send.
  destruct Hm as [-> | ->]; cbn [String.eqb Ascii.eqb Bool.eqb andb];
    match goal with |- context [srv ?q] => destruct (srv q) as [r|e] end;
    try (destruct (is_Timeout e); [|destruct (is_ConnectionError e)]; reflexivity);
    destruct (status_code r =? 200); try reflexivity;
    destruct (body r); reflexivity.
Qed.

(** *** The failure texts *)

Ltac same_start E :=
  unfold msg_timeout, msg_http, msg_failed, msg_error in E;
  do 2 apply append_inv_head in E;
  repeat rewrite append_cons in E;
  discriminate E.

Ltac count_char c E :=
  unfold msg_timeout, msg_http, msg_failed, msg_error, msg_connection in E;
  apply (f_equal (occurrences c)) in E;
  repeat rewrite occurrences_append in E;
  cbn in E; lia.

Lemma failure_texts_distinct tool_name status text error error' :
  NoDup [msg_timeout tool_name; msg_connection tool_name;
         msg_http tool_name status text; msg_failed tool_name error;
         msg_error tool_name error'].
Proof.
  repeat (apply NoDup_cons; split); try apply NoDup_nil_2;
    repeat (apply not_elem_of_cons; split); try apply not_elem_of_nil;
    intros E.
  - count_char "a"%char E.
  - same_start E.
  - same_start E.
  - same_start E.
  - count_char "a"%char E.
  - count_char "a"%char E.
  - count_char ":"%char E.
  - same_start E.
  - same_start E.
  - same_start E.
Qed.

(** C7. [_execute_remote_tool] always returns a text and never raises.
    For a registered capability whose config has an endpoint and a POST
    or GET method, a timeout, a connection failure, a status other than
    200, a 200 envelope whose [success] is false, and a 200 object with
    an [error] field and no [success] field each give their own text;
    for one capability name the five texts are pairwise different,
    whatever the status, the body and the error values are. *)
Theorem invoke_failures_are_labelled_texts srv tool_name kw s :
  (exists text, snd (_execute_remote_tool srv tool_name kw s) = Return text) /\
  (forall config endpoint method,
     tool_configs (self s) !! KStr tool_name = Some config ->
     getitem config "endpoint" = Return endpoint ->
     getitem config "method" = Return (JStr method) ->
     upper method = "POST"%string \/ upper method = "GET"%string ->
     let request := request_of (base_url (self s)) endpoint method kw in
     let result := snd (_execute_remote_tool srv tool_name kw s) in
     (forall e, srv request = Raise e -> is_Timeout e = true ->
        result = Return (msg_timeout tool_name)) /\
     (forall e, srv request = Raise e -> is_Timeout e = false ->
        is_ConnectionError e = true ->
        result = Return (msg_connection tool_name)) /\
     (forall r, srv request = Return r -> status_code r <> 200 ->
        result = Return (msg_http tool_name (status_code r) (text r))) /\
     (forall r d success,
        srv request = Return r -> status_code r = 200 ->
        body r = Some (JDict d) ->
        assoc "success" d = Some success -> truthy success = false ->
        result =
          Return (msg_failed tool_name
                    (fmt (default (JStr "Unknown error") (assoc "error" d))))) /\
     (forall r d error,
        srv request = Return r -> status_code r = 200 ->
        body r = Some (JDict d) ->
        assoc "success" d = None -> assoc "error" d = Some error ->
        result = Return (msg_error tool_name (fmt error)))) /\
  (forall status text error error',
     NoDup [msg_timeout tool_name; msg_connection tool_name;
            msg_http tool_name status text; msg_failed tool_name error;
            msg_error tool_name error']).
Proof.
  split; [apply execute_never_raises|]. split; [|apply failure_texts_distinct].
  intros config endpoint method Ec Ee Em Hm request result.
  unfold result.
  rewrite (execute_registered srv tool_name kw s config endpoint method
             Ec Ee Em Hm).
  fold request. cbn [snd]. unfold answer_text.
  split; [|split; [|split; [|split]]].
  - intros e -> ->. reflexivity.
  - intros e -> -> ->. reflexivity.
  - intros r -> Hs.
    destruct (Z.eqb_spec (status_code r) 200); [contradiction|reflexivity].
  - intros r d success -> -> -> Hsucc Hfalse. cbn.
    rewrite Hsucc, Hfalse. reflexivity.
  - intros r d error -> -> -> Hsucc Herr. cbn.
    rewrite Hsucc, Herr. reflexivity.
Qed.

(** C8. For a name that has no descriptor, [_execute_remote_tool]
    returns the error text that carries the failed lookup of that name,
    and sends no request: the state, with its list of sent requests, is
    unchanged. *)
Theorem invoke_absent_capability_sends_nothing srv tool_name kw s :
  tool_configs (self s) !! KStr tool_name = None ->
  snd (_execute_remote_tool srv tool_name kw s) =
    Return (msg_exception tool_name (str_exn (KeyError tool_name))) /\
  fst (_execute_remote_tool srv tool_name kw s) = s /\
  sent (fst (_execute_remote_tool srv tool_name kw s)) = sent s.
Proof.
  intros E. rewrite (execute_absent srv tool_name kw s E). auto.
Qed.
End WithRuntime.

(** *** Instances *)

#[local] Existing Instance sample_runtime.

(** A second discovery lists [read_inbox] only: it succeeds, and
    [send_email] of the first discovery is still registered, so the set
    is not the one that the second listing alone gives. *)
Lemma rediscovery_keeps_old_descriptors :
  let s := fst (discover_tools (listing_of [read_inbox]) first_epoch) in
  snd (discover_tools (listing_of [read_inbox]) first_epoch) = Return true /\
  tool_configs (self s) !! KStr "send_email" = Some send_email /\
  tool_configs (self s) <> replaced_by [read_inbox].
Proof.
  split; [vm_compute; reflexivity|]. split; [vm_compute; reflexivity|].
  unfold replaced_by. intros E. apply (f_equal (fun m => m !! KStr "send_email")) in E.
  vm_compute in E. discriminate.
Qed.

(** The same second discovery, and a discovery against a server that
    cannot be reached. *)
Lemma discover_merges_into_existing_set_witness :
  (snd (discover_tools (listing_of [read_inbox]) first_epoch) = Return true /\
   tool_configs (self (fst (discover_tools (listing_of [read_inbox]) first_epoch)))
     !! KStr "send_email" = Some send_email) /\
  (snd (discover_tools unreachable first_epoch) = Return false /\
   self (fst (discover_tools unreachable first_epoch)) = self first_epoch).
Proof.
  destruct (discover_merges_into_existing_set (listing_of [read_inbox]) first_epoch)
    as (Hok & _ & _).
  destruct (discover_merges_into_existing_set unreachable first_epoch)
    as (_ & Hfail & _).
  split.
  - destruct (Hok {| status_code := 200; text := "";
                     body := Some (JDict [("tools"%string, JList [read_inbox])]) |}
                  [("tools"%string, JList [read_inbox])] [read_inbox]
                  eq_refl eq_refl eq_refl eq_refl)
      as (Hr & _ & Hkeep & _).
    + repeat constructor.
    + split; [exact Hr|]. rewrite Hkeep; [vm_compute; reflexivity|].
      intros e He. apply list_elem_of_singleton in He. subst e.
      vm_compute. discriminate.
  - exact (Hfail ConnectionError eq_refl).
Defined.

(** [send_email] invoked while the server cannot be reached. *)
Lemma invoke_failures_are_labelled_texts_witness :
  snd (_execute_remote_tool unreachable "send_email" [] first_epoch) =
    Return (msg_connection "send_email").
Proof.
  destruct (invoke_failures_are_labelled_texts unreachable "send_email" []
              first_epoch) as (_ & Hlab & _).
  destruct (Hlab send_email (JStr "/gmail/send") "POST"%string)
    as (_ & Hconn & _).
  - vm_compute. reflexivity.
  - reflexivity.
  - reflexivity.
  - left. reflexivity.
  - exact (Hconn ConnectionError eq_refl eq_refl eq_refl).
Defined.

(** [read_inbox] invoked on a registry that only knows [send_email]. *)
Lemma invoke_absent_capability_sends_nothing_witness :
  snd (_execute_remote_tool unreachable "read_inbox" [] first_epoch) =
    Return (msg_exception "read_inbox" "'read_inbox'") /\
  sent (fst (_execute_remote_tool unreachable "read_inbox" [] first_epoch)) =
    sent first_epoch.
Proof.
  destruct (invoke_absent_capability_sends_nothing unreachable "read_inbox" []
              first_epoch) as (Hr & _ & Hs).
  - vm_compute. reflexivity.
  - split; [exact Hr|exact Hs].
Defined.
End RemoteProofs.

(** ** Properties of the reminder scheduler *)
Module RemindersProofs.
Import Reminders RemindersSpec.

Section WithCalendar.
Context `{Calendar}.

Lemma due_readable now r : due now r -> ~ unreadable r.
Proof. intros (_ & _ & Hw) (_ & _ & Hn). rewrite Hn in Hw. exact Hw. Qed.

Lemma visit_cases now c i r :
  reminders c !! i = Some r ->
  visit now c i =
    if decide (unreadable r) then Raise ValueError
    else Return
           (if decide (due now r) then
              {| reminders := <[i := set_notified r]> (reminders c);
                 store := Stored (<[i := set_notified r]> (reminders c));
                 shown := shown c ++ [(i, r)] |}
            else c).
Proof.
  intros E. unfold visit, strptime, in_window, save_reminders. rewrite E.
  destruct (decide (unreadable r)) as [(Hc & Hn & Ht)|Hread].
  { rewrite Hc, Hn, Ht. reflexivity. }
  destruct (decide (due now r)) as [(Hc & Hn & Hw)|Hnot].
  - rewrite Hc, Hn. cbn [negb andb].
    destruct (strptime_minutes (datetime r)) as [m|]; [|contradiction].
    destruct (Z.leb_spec 0 (now - m * minute)); [|lia].
    destruct (Z.leb_spec (now - m * minute) (60 * 1000000)); [|lia].
    reflexivity.
  - destruct (completed r) eqn:Hc; [reflexivity|].
    destruct (default false (notified r)) eqn:Hn; [reflexivity|].
    cbn [negb andb].
    destruct (strptime_minutes (datetime r)) as [m|] eqn:Ht.
    + destruct (Z.leb_spec 0 (now - m * minute)); [|reflexivity].
      destruct (Z.leb_spec (now - m * minute) (60 * 1000000)); [|reflexivity].
      exfalso. apply Hnot. unfold due. rewrite Ht. auto.
    + exfalso. apply Hread. unfold unreadable. auto.
Qed.

Lemma insert_middle {A} (done todo : list A) (r x : A) :
  <[length done := x]> (done ++ r :: todo) = done ++ x :: todo.
Proof. induction done as [|d done IH]; cbn; [reflexivity|f_equal; exact IH]. Qed.

Lemma mark_due now r : due now r -> mark now r = set_notified r.
Proof. intros Hd. unfold mark. destruct (decide _); [reflexivity|contradiction]. Qed.

Lemma mark_not_due now r : ~ due now r -> mark now r = r.
Proof. intros Hd. unfold mark. destruct (decide _); [contradiction|reflexivity]. Qed.

Lemma reached_cons r l :
  ~ unreadable r -> reached (r :: l) = r :: reached l.
Proof. intros Hr. cbn [reached]. destruct (decide _); [contradiction|reflexivity]. Qed.

Lemma swept_cons now r l :
  ~ unreadable r -> swept now (r :: l) = mark now r :: swept now l.
Proof. intros Hr. cbn [swept]. destruct (decide _); [contradiction|reflexivity]. Qed.

Lemma swept_none now (l : list reminder) :
  ~ Exists (due now) (reached l) -> swept now l = l.
Proof.
  induction l as [|r l IH]; intros Hno; [reflexivity|].
  cbn [swept reached] in *. destruct (decide (unreadable r)); [reflexivity|].
  rewrite mark_not_due, IH; [reflexivity| |].
  - intros Hl. apply Hno, Exists_cons. auto.
  - intros Hd. apply Hno, Exists_cons. auto.
Qed.

Lemma reached_due_all now l :
  Exists (due now) (reached l) -> Exists (due now) l.
Proof.
  induction l as [|r l IH]; cbn [reached]; [auto|].
  destruct (decide (unreadable r)); [intros Hx; apply Exists_nil in Hx; contradiction|].
  intros [Hd|Hl]%Exists_cons; apply Exists_cons; auto.
Qed.

Lemma length_swept now l : length (swept now l) = length l.
Proof.
  induction l as [|r l IH]; [reflexivity|]. cbn [swept].
  destruct (decide _); cbn [length]; congruence.
Qed.

(** The loop over the part of the list that is still to be visited. *)
Lemma scan_fold now todo : forall done f sh,
  scan now {| reminders := done ++ todo; store := f; shown := sh |}
       (seq (length done) (length todo)) =
  ({| reminders := done ++ swept now todo;
      store := if decide (Exists (due now) (reached todo))
               then Stored (done ++ swept now todo) else f;
      shown := sh ++ due_from now (length done) (reached todo) |},
   if decide (Exists unreadable todo) then Raise ValueError else Return tt).
Proof.
  induction todo as [|r todo IH]; intros done f sh.
  - cbn. rewrite !app_nil_r.
    destruct (decide (Exists (due now) [])) as [Hex|_];
      [apply Exists_nil in Hex; contradiction|].
    destruct (decide (Exists unreadable [])) as [Hex|_];
      [apply Exists_nil in Hex; contradiction|reflexivity].
  - cbn [length seq scan].
    rewrite (visit_cases now _ (length done) r)
      by (cbn [reminders]; apply list_lookup_middle; reflexivity).
    destruct (decide (unreadable r)) as [Hu|Hu].
    { cbn [swept reached due_from]. destruct (decide (unreadable r)); [|contradiction].
      cbn [due_from]. rewrite app_nil_r.
      destruct (decide (Exists (due now) [])) as [Hex|_];
        [apply Exists_nil in Hex; contradiction|].
      destruct (decide (Exists unreadable (r :: todo))) as [_|Hno];
        [reflexivity|exfalso; apply Hno, Exists_cons; auto]. }
    rewrite (reached_cons r todo Hu), (swept_cons now r todo Hu).
    cbn [due_from reminders shown]. rewrite insert_middle.
    assert (Hstop : (if decide (Exists unreadable (r :: todo))
                     then Raise ValueError else Return tt) =
                    (if decide (Exists unreadable todo)
                     then @Raise unit ValueError else Return tt)).
    { destruct (decide (Exists unreadable todo)) as [Hex|Hno];
        destruct (decide (Exists unreadable (r :: todo))) as [Hex'|Hno'];
        try reflexivity.
      - exfalso. apply Hno', Exists_cons. auto.
      - exfalso. apply Exists_cons in Hex' as [?|?]; auto. }
    rewrite Hstop.
    destruct (decide (due now r)) as [Hd|Hd].
    + rewrite (mark_due now r Hd).
      replace (done ++ set_notified r :: todo)
        with ((done ++ [set_notified r]) ++ todo)
        by (rewrite <- app_assoc; reflexivity).
      replace (S (length done)) with (length (done ++ [set_notified r]))
        by (rewrite length_app; cbn; lia).
      rewrite IH. rewrite <- !app_assoc. cbn [app]. f_equal. f_equal.
      destruct (decide (Exists (due now) (r :: reached todo))) as [_|Hno];
        [|exfalso; apply Hno, Exists_cons; auto].
      destruct (decide (Exists (due now) (reached todo))) as [_|Hno];
        [reflexivity|].
      rewrite (swept_none now todo Hno). reflexivity.
    + rewrite (mark_not_due now r Hd).
      replace (done ++ r :: todo) with ((done ++ [r]) ++ todo)
        by (rewrite <- app_assoc; reflexivity).
      replace (S (length done)) with (length (done ++ [r]))
        by (rewrite length_app; cbn; lia).
      rewrite IH. rewrite <- !app_assoc. cbn [app]. f_equal. f_equal.
      destruct (decide (Exists (due now) (reached todo))) as [Hex|Hno];
        destruct (decide (Exists (due now) (r :: reached todo))) as [Hex'|Hno'];
        try reflexivity.
      * exfalso. apply Hno', Exists_cons. auto.
      * exfalso. apply Exists_cons in Hex' as [?|?]; auto.
Qed.

Lemma scheduler_pass_eq now f :
  let l := load_reminders f in
  scheduler_pass now f =
    ({| reminders := swept now l;
        store := if decide (Exists (due now) (reached l))
                 then Stored (swept now l) else f;
        shown := due_from now 0 (reached l) |},
     if decide (Exists unreadable l) then Raise ValueError else Return tt).
Proof.
  intros l. unfold scheduler_pass. fold l.
  exact (scan_fold now l [] f []).
Qed.

Lemma scheduler_cycle_eq now f :
  let l := load_reminders f in
  scheduler_cycle now f =
    {| reminders := swept now l;
       store := if decide (Exists (due now) (reached l))
                then Stored (swept now l) else f;
       shown := due_from now 0 (reached l) |}.
Proof.
  intros l. unfold scheduler_cycle. rewrite scheduler_pass_eq. reflexivity.
Qed.

Lemma cycle_store now f :
  load_reminders (store (scheduler_cycle now f)) =
  swept now (load_reminders f).
Proof.
  rewrite scheduler_cycle_eq. cbn [store].
  destruct (decide _) as [_|Hno]; [reflexivity|].
  rewrite (swept_none now _ Hno). reflexivity.
Qed.

(** *** The records that a cycle gets past *)

Lemma reached_lookup l : forall i r,
  reached l !! i = Some r <->
  l !! i = Some r /\ unblocked i l /\ ~ unreadable r.
Proof.
  unfold unblocked.
  induction l as [|r0 l IH]; intros i r.
  - cbn. split; [discriminate|intros [E _]; discriminate].
  - cbn [reached]. destruct (decide (unreadable r0)) as [Hu|Hu].
    + split; [discriminate|]. intros (E & Hb & Hr). destruct i as [|i].
      * cbn in E. injection E as <-. contradiction.
      * cbn [take] in Hb. apply Forall_cons in Hb as [Hb _]. contradiction.
    + destruct i as [|i].
      * cbn. split.
        -- intros [= <-]. split; [reflexivity|]. split; [constructor|exact Hu].
        -- intros ([= <-] & _). reflexivity.
      * cbn [lookup list_lookup take]. rewrite IH. split.
        -- intros (E & Hb & Hr). split; [exact E|]. split; [|exact Hr].
           apply Forall_cons. auto.
        -- intros (E & Hb & Hr). apply Forall_cons in Hb as [_ Hb]. auto.
Qed.



Lemma elem_of_due_from now l : forall k i r,
  (i, r) ∈ due_from now k l <->
  (k <= i)%nat /\ l !! (i - k)%nat = Some r /\ due now r.
Proof.
  induction l as [|r0 l IH]; intros k i r; cbn [due_from].
  - split; [intros Hin; apply elem_of_nil in Hin; contradiction|].
    intros (_ & Hl & _). discriminate.
  - rewrite elem_of_app, IH. split.
    + intros [Hin|(Hk & Hl & Hd)].
      * destruct (decide (due now r0)) as [Hd|Hd];
          [|apply elem_of_nil in Hin; contradiction].
        apply list_elem_of_singleton in Hin. injection Hin as -> ->.
        replace (k - k)%nat with 0%nat by lia. auto.
      * replace (i - k)%nat with (S (i - S k)) by lia.
        split; [lia|split; [exact Hl|exact Hd]].
    + intros (Hk & Hl & Hd). destruct (decide (i = k)) as [->|Hne].
      * replace (k - k)%nat with 0%nat in Hl by lia. injection Hl as ->.
        left. destruct (decide (due now r)); [|contradiction].
        apply list_elem_of_singleton. reflexivity.
      * right. replace (i - k)%nat with (S (i - S k)) in Hl by lia.
        split; [lia|split; [exact Hl|exact Hd]].
Qed.

(** What a cycle shows. *)
Lemma shown_iff now f i r :
  (i, r) ∈ shown (scheduler_cycle now f) <->
  load_reminders f !! i = Some r /\ due now r /\ unblocked i (load_reminders f).
Proof.
  rewrite scheduler_cycle_eq. cbn [shown]. rewrite elem_of_due_from.
  replace (i - 0)%nat with i by lia. rewrite reached_lookup. split.
  - intros (_ & (E & Hb & _) & Hd). auto.
  - intros (E & Hd & Hb). split; [lia|]. split; [|exact Hd].
    split; [exact E|]. split; [exact Hb|exact (due_readable now r Hd)].
Qed.


Lemma scheduler_step now clock f :
  reminder_scheduler (now :: clock) f =
    (fst (reminder_scheduler clock (store (scheduler_cycle now f))),
     shown (scheduler_cycle now f)
       :: snd (reminder_scheduler clock (store (scheduler_cycle now f)))).
Proof.
  cbn [reminder_scheduler]. destruct (reminder_scheduler clock _). reflexivity.
Qed.







End WithCalendar.

(** *** Instances *)

#[local] Existing Instance sample_calendar.


End RemindersProofs.

(** ** Further properties of the context store *)
Module ContextViewProofs.
Import Context ContextSpec StringFacts ContextProofs ContextView.

(** *** Loading *)

Lemma last_n_suffix {A} n (l : list A) : last_n n l `suffix_of` l.
Proof. exists (take (length l - n) l). unfold last_n. symmetry. apply take_drop. Qed.

Lemma last_n_idem {A} n (l : list A) : last_n n (last_n n l) = last_n n l.
Proof.
  pose proof (last_n_app n l []) as E. rewrite !app_nil_r in E. exact E.
Qed.

Lemma slice_from_5 {A} (l : list A) : slice_from (-5) l = last_n maxlen l.
Proof. change (-5) with (Z.opp 5). rewrite slice_from_neg by lia. reflexivity. Qed.

Lemma seed_window {A} (l : list A) :
  deque_extend [] (slice_from (-5) l) = last_n maxlen l.
Proof.
  rewrite deque_extend_last_n by (cbn; unfold maxlen; lia).
  cbn [app]. rewrite slice_from_5. apply last_n_idem.
Qed.

(** X1. Whatever is found at the context file, the window of a new
    manager is the last five turns of its history.  For an object whose
    two keys can be read, history and profile are the stored ones (the
    empty history and the default profile where the key is absent).  For
    an object in which some conversation cannot be built, the profile is
    the stored one (the default if absent) and the history is empty: the
    profile is assigned before the conversations are built.  For a file
    that is absent or does not decode to an object, and for an object
    whose profile cannot be built, the history is empty and the profile
    is the default, whatever conversations the object holds. *)
Theorem init_seeds_window_from_store sid f m w :
  let cm := init sid f m w in
  current_session cm = last_n maxlen (history cm) /\
  (forall d, file w = Object d ->
     history cm = default [] (cd_conversations d) /\
     user_profile cm = default UserProfile_default (cd_user_profile d)) /\
  (forall profile_data other,
     file w = BadConversations profile_data other ->
     history cm = [] /\
     user_profile cm = default UserProfile_default profile_data) /\
  (file w = Missing \/ file w = Corrupt \/
   (exists other, file w = BadProfile other) ->
     history cm = [] /\ user_profile cm = UserProfile_default).
Proof.
  intros cm. unfold cm, init, _load_context.
  destruct (file w) as [| |d|other|profile_data other]; cbn.
  - split; [reflexivity|]. split; [discriminate|]. split; [discriminate|auto].
  - split; [reflexivity|]. split; [discriminate|]. split; [discriminate|auto].
  - split; [|split; [|split]].
    + destruct (cd_user_profile d), (cd_conversations d); cbn;
        try reflexivity; apply seed_window.
    + intros d' E. injection E as <-.
      destruct (cd_user_profile d), (cd_conversations d); cbn; auto.
    + discriminate.
    + intros [E|[E|[other E]]]; discriminate.
  - split; [reflexivity|]. split; [discriminate|]. split; [discriminate|auto].
  - split; [|split; [|split]].
    + destruct profile_data; reflexivity.
    + discriminate.
    + intros p o E. injection E as <- <-. destruct profile_data; auto.
    + intros [E|[E|[o E]]]; discriminate.
Qed.

(** A file that holds two turns and no profile, and a file that holds a
    profile beside a conversation that cannot be built. *)
Lemma init_seeds_window_from_store_witness :
  let turns := map (turn_of "20231231_090000") [said "one" "1"; said "two" "2"] in
  let w := {| file := Object {| cd_user_profile := None;
                                cd_conversations := Some turns;
                                cd_other := [] |};
              writes := [] |} in
  let ada := {| name := "Ada"; preferences := [];
                frequently_used_commands := ["list"%string];
                last_interaction := None |} in
  let w' := {| file := BadConversations (Some ada) []; writes := [] |} in
  (history (init "20240101_090000" "context_memory.json" 100 w) = turns /\
   user_profile (init "20240101_090000" "context_memory.json" 100 w) =
     UserProfile_default) /\
  (history (init "20240101_090000" "context_memory.json" 100 w') = [] /\
   user_profile (init "20240101_090000" "context_memory.json" 100 w') = ada).
Proof.
  intros turns w ada w'.
  destruct (init_seeds_window_from_store "20240101_090000"
              "context_memory.json" 100 w) as (_ & Hobj & _).
  destruct (init_seeds_window_from_store "20240101_090000"
              "context_memory.json" 100 w') as (_ & _ & Hbad & _).
  split; [exact (Hobj _ eq_refl)|exact (Hbad _ _ eq_refl)].
Defined.

(** *** The window follows the history *)

Lemma deque_append_suffix {A} (session older : list A) (x : A) :
  (length session <= maxlen)%nat ->
  deque_append session x `suffix_of` (older ++ session) ++ [x].
Proof.
  intros Hs. rewrite deque_append_last_n by exact Hs.
  destruct (last_n_suffix maxlen (session ++ [x])) as [k Hk].
  exists (older ++ k). rewrite <- !app_assoc. f_equal. exact Hk.
Qed.

Lemma follows_init sid f m w : follows (init sid f m w).
Proof.
  split; [apply window_ok_init|].
  destruct (init_seeds_window_from_store sid f m w) as (E & _).
  rewrite E. apply last_n_suffix.
Qed.

Lemma follows_call s c : follows (fst s) -> follows (fst (do_call s c)).
Proof.
  destruct s as [cm w]. cbn [fst]. intros [Hok [older Hsuf]].
  destruct c; cbn [do_call fst snd].
  - split; [apply window_ok_add; exact Hok|].
    rewrite add_turn_session, add_turn_history, Hsuf.
    apply deque_append_suffix. exact Hok.
  - split; [exact Hok|exists older; exact Hsuf].
  - split; [unfold window_ok; cbn; lia|exists []; reflexivity].
  - split; [unfold window_ok; cbn; lia|].
    exists (history cm). cbn. rewrite app_nil_r. reflexivity.
Qed.

(** X2. In every state that a manager reaches from its start through
    recorded turns, saves, session clears and resets, the session window
    holds at most five turns and is the tail end of the in-memory
    history: the window never shows a turn that the history lacks, nor
    turns out of order. *)
Theorem window_is_tail_of_history sid f m w (calls : list call) :
  let s := foldl do_call (init sid f m w, w) calls in
  (length (current_session (fst s)) <= 5)%nat /\
  exists older, history (fst s) = older ++ current_session (fst s).
Proof.
  assert (H : forall calls s, follows (fst s) -> follows (fst (foldl do_call s calls))).
  { clear. induction calls as [|c calls IH]; intros s Hs; cbn [foldl]; [exact Hs|].
    apply IH, follows_call, Hs. }
  intros s. destruct (H calls (init sid f m w, w) (follows_init sid f m w)) as [Hok Hs].
  split; [exact Hok|exact Hs].
Qed.

(** *** Saving *)

Lemma add_turn_corrupt now u r ct cm w :
  file w = Corrupt -> snd (add_conversation_turn now u r ct (cm, w)) = w.
Proof.
  intros E. unfold add_conversation_turn.
  match goal with |- context [if ?b then _ else _] => destruct b end;
    cbn [snd]; [|reflexivity].
  unfold _save_context. rewrite E. reflexivity.
Qed.

(** X3. While the context file holds something that does not decode to
    an object, nothing is ever written: every recorded turn (with its
    autosave), every explicit save and every session clear leaves the file
    and the write log as they were.  Only [clean_context_file] replaces
    such a file. *)
Theorem corrupt_store_is_never_written cm w (calls : list call) :
  file w = Corrupt ->
  Forall (fun c => is_clean c = false) calls ->
  snd (foldl do_call (cm, w) calls) = w.
Proof.
  intros E. revert cm. induction calls as [|c calls IH]; intros cm Hc;
    cbn [foldl]; [reflexivity|].
  apply Forall_cons in Hc as [Hc Hcs].
  assert (Hw : snd (do_call (cm, w) c) = w).
  { destruct c; cbn [do_call fst snd]; try reflexivity.
    - apply add_turn_corrupt. exact E.
    - unfold save_session, _save_context. rewrite E. reflexivity.
    - discriminate. }
  destruct (do_call (cm, w) c) as [cm1 w1]. cbn [snd] in Hw. subst w1.
  apply IH. exact Hcs.
Qed.

(** Two turns and an explicit save over such a file. *)
Lemma corrupt_store_is_never_written_witness :
  snd (foldl do_call (fresh, undecodable)
         [Add "2024-01-01T09:00:00" "create a note" "ok" "general"; Save;
          Add "2024-01-01T09:01:00" "read it" "ok" "general"]) = undecodable.
Proof.
  apply (corrupt_store_is_never_written fresh undecodable).
  - reflexivity.
  - repeat constructor.
Defined.

Lemma length_slice_from_neg {A} (n : Z) (l : list A) :
  0 < n -> (length (slice_from (- n) l) <= Z.to_nat n)%nat.
Proof. intros Hn. rewrite slice_from_neg, length_last_n by exact Hn. lia. Qed.

(** X4. A save over a file that holds an object overwrites the profile
    and the conversations and keeps every other key of the file; with a
    positive cap it stores at most [max_history] turns; and saving again
    without a change in between leaves the file content the same. *)
Theorem save_keeps_foreign_keys cm w d :
  file w = Object d ->
  file (_save_context cm w) =
    Object {| cd_user_profile := Some (user_profile cm);
              cd_conversations :=
                Some (slice_from (- max_history cm) (history cm));
              cd_other := cd_other d |} /\
  (0 < max_history cm ->
   (length (slice_from (- max_history cm) (history cm))
    <= Z.to_nat (max_history cm))%nat) /\
  file (_save_context cm (_save_context cm w)) = file (_save_context cm w).
Proof.
  intros E. unfold _save_context. rewrite E. cbn.
  split; [reflexivity|]. split; [apply length_slice_from_neg|reflexivity].
Qed.

(** A file with a foreign key [theme], saved by a manager with six turns
    and a cap of four. *)
Lemma save_keeps_foreign_keys_witness :
  let d := {| cd_user_profile := None; cd_conversations := None;
              cd_other := [("theme"%string, JStr "dark")] |} in
  let cm := fst (record_turns
                   (init "20240101_090000" "context_memory.json" 4 no_file,
                    no_file) six_turns) in
  exists p turns,
    file (_save_context cm {| file := Object d; writes := [] |}) =
      Object {| cd_user_profile := Some p; cd_conversations := Some turns;
                cd_other := [("theme"%string, JStr "dark")] |} /\
    (length turns <= 4)%nat.
Proof.
  intros d cm.
  destruct (save_keeps_foreign_keys cm {| file := Object d; writes := [] |} d
              eq_refl) as (Hf & Hl & _).
  eexists _, _. split; [exact Hf|]. apply Hl. vm_compute. reflexivity.
Defined.

(** *** Reports *)

(** X5. The turn count that [get_stats] reports is the size of the
    window, not of the session: after [ts] turns recorded into a window
    of [n] turns it is [min 5 (n + length ts)], so it never exceeds five;
    and the commands it reports are at most five. *)
Theorem stats_turn_count_saturates cm w ts :
  window_ok cm ->
  let st := get_stats (fst (record_turns (cm, w) ts)) in
  current_session_turns st =
    Nat.min 5 (length (current_session cm) + length ts) /\
  (length (stats_frequently_used_commands st) <= 5)%nat.
Proof.
  intros Hok st. unfold st, get_stats. cbn [current_session_turns
    stats_frequently_used_commands]. split.
  - destruct (record_turns_window ts cm w Hok) as (Hs & _).
    rewrite Hs, length_last_n, length_app, length_map. reflexivity.
  - rewrite slice_from_5, length_last_n. unfold maxlen. lia.
Qed.

(** Six turns recorded by a new manager are reported as five. *)
Lemma stats_turn_count_saturates_witness :
  current_session_turns
    (get_stats (fst (record_turns (fresh, no_file) six_turns))) = 5%nat.
Proof.
  apply (stats_turn_count_saturates fresh no_file six_turns).
  unfold window_ok. vm_compute. lia.
Defined.

Lemma length_append (a b : string) :
  String.length (a +:+ b) = (String.length a + String.length b)%nat.
Proof.
  induction a as [|c a IH]; [reflexivity|].
  rewrite append_cons. cbn [String.length]. rewrite IH. reflexivity.
Qed.

Lemma length_str_upto n s : (String.length (str_upto n s) <= n)%nat.
Proof.
  unfold str_upto. revert s. induction n as [|n IH]; intros [|c s]; cbn;
    try lia. specialize (IH s). lia.
Qed.

Lemma foldl_render_recent_head c h turns :
  exists rest, foldl render_recent (String c h) turns = String c rest.
Proof.
  revert h. induction turns as [|t turns IH]; intros h; cbn [foldl]; [eauto|].
  unfold render_recent at 2. rewrite append_cons. apply IH.
Qed.

(** X6. [get_context_summary] returns its "no context" sentence exactly
    when the session window is empty; and the preview of a response in
    the summary has at most 103 characters and is the response itself
    when that has at most 100. *)
Theorem summary_is_sentinel_iff_window_empty cm :
  (get_context_summary cm = no_context <-> current_session cm = []) /\
  (forall r, (String.length (response_preview r) <= 103)%nat /\
             ((String.length r <= 100)%nat -> response_preview r = r)).
Proof.
  split.
  - unfold get_context_summary. destruct (current_session cm) as [|t ts] eqn:E.
    + split; reflexivity.
    + split; [|discriminate]. intros H. exfalso.
      destruct (foldl_render_recent_head "#"
                  ("# Recent Conversation Context:" +:+ nl)
                  (slice_from (-5) (t :: ts))) as [rest Hr].
      change (String "#" ("# Recent Conversation Context:" +:+ nl))
        with ("## Recent Conversation Context:" +:+ nl)%string in Hr.
      rewrite Hr in H.
      destruct (frequently_used_commands (user_profile cm));
        [|rewrite append_cons in H]; discriminate H.
  - intros r. unfold response_preview.
    destruct (Nat.ltb_spec 100 (String.length r)).
    + split; [|lia]. rewrite length_append. cbn [String.length].
      pose proof (length_str_upto 100 r). lia.
    + split; [lia|reflexivity].
Qed.

(** A response of three characters is previewed as it is. *)
Lemma summary_is_sentinel_iff_window_empty_witness :
  get_context_summary fresh = no_context /\ response_preview "ok." = "ok."%string.
Proof.
  destruct (summary_is_sentinel_iff_window_empty fresh) as ((_ & Hs) & Hp).
  split; [apply Hs; reflexivity|]. apply (Hp "ok."%string). vm_compute. lia.
Defined.

(** *** Clearing and resetting *)

Lemma relevant_context_eq cm query :
  get_relevant_context cm query =
    match current_session cm with
    | [] => ""%string
    | _ => render_all (newest_three (token_occurs query) (history cm))
    end.
Proof.
  unfold get_relevant_context. destruct (current_session cm); [reflexivity|].
  pose proof (scan_history_newest_three query (history cm)) as E.
  unfold render_all. rewrite <- E.
  destruct (scan_history _ _ _) as [|t found] eqn:Es; [reflexivity|].
  destruct (rev (t :: found)) eqn:Er; [|reflexivity].
  apply (f_equal (@length _)) in Er. rewrite length_rev in Er. discriminate.
Qed.

(** X7. [clear_session] keeps the profile and empties window and
    history: afterwards no query has relevant context and the summary is
    the "no context" sentence, and the next save over a readable file
    stores an empty list of conversations beside the kept profile. *)
Theorem clear_session_erases_history sid cm w query :
  file w <> Corrupt ->
  let cm' := clear_session sid cm in
  user_profile cm' = user_profile cm /\
  get_relevant_context cm' query = ""%string /\
  get_context_summary cm' = no_context /\
  file (save_session cm' w) =
    Object {| cd_user_profile := Some (user_profile cm);
              cd_conversations := Some [];
              cd_other := foreign_keys w |}.
Proof.
  intros Hf cm'. split; [reflexivity|]. split; [reflexivity|].
  split; [reflexivity|].
  unfold save_session, _save_context, foreign_keys, write_file.
  destruct (file w); try congruence; cbn;
    unfold slice_from; rewrite drop_nil; reflexivity.
Qed.

(** Six turns, a clear, and a save into a new file. *)
Lemma clear_session_erases_history_witness :
  let cm := fst (record_turns (fresh, no_file) six_turns) in
  file (save_session (clear_session "20240102_090000" cm) no_file) =
    Object {| cd_user_profile := Some (user_profile cm);
              cd_conversations := Some []; cd_other := [] |}.
Proof.
  intros cm.
  destruct (clear_session_erases_history "20240102_090000" cm no_file "six")
    as (_ & _ & _ & E).
  - discriminate.
  - exact E.
Defined.

(** X8. After [clean_context_file] no query has relevant context, since
    the window is empty; once the next turn is recorded, retrieval runs
    again over the whole retained history, the turns from before the
    reset included. *)
Theorem reset_hides_history_until_next_turn sid cm w now u r ct query :
  let s := clean_context_file sid (cm, w) in
  let turn := turn_of sid {| ti_now := now; ti_user_input := u;
                             ti_response := r; ti_context_type := ct |} in
  get_relevant_context (fst s) query = ""%string /\
  get_relevant_context (fst (add_conversation_turn now u r ct s)) query =
    render_all (newest_three (token_occurs query) (history cm ++ [turn])).
Proof.
  intros s turn. split; [reflexivity|].
  rewrite relevant_context_eq.
  unfold s, clean_context_file. rewrite add_turn_session, add_turn_history.
  reflexivity.
Qed.

(** X9. A query without any non-whitespace character (the empty query
    included) has no tokens, and [get_relevant_context] returns the empty
    string for it whatever the history holds. *)
Theorem blank_query_has_no_relevant_context cm query :
  all_chars isspace query = true ->
  get_relevant_context cm query = ""%string.
Proof.
  intros Hq.
  assert (Hs : split (lower query) = []).
  { unfold split. clear cm. induction query as [|c q IH]; [reflexivity|].
    cbn [all_chars] in Hq. apply andb_prop in Hq as [Hc Hq].
    cbn [lower split_from].
    assert (Hl : isspace (lower_char c) = true).
    { unfold lower_char.
      destruct ((65 <=? nat_of_ascii c)%nat && (nat_of_ascii c <=? 90)%nat) eqn:Hu;
        [|exact Hc].
      exfalso. unfold isspace in Hc.
      apply andb_prop in Hu as [H1 H2].
      apply Nat.leb_le in H1. apply Nat.leb_le in H2.
      apply orb_prop in Hc as [Hc|Hc]; apply andb_prop in Hc as [H3 H4];
        apply Nat.leb_le in H3; apply Nat.leb_le in H4; lia. }
    rewrite Hl. cbn. apply IH. exact Hq. }
  rewrite relevant_context_eq. destruct (current_session cm); [reflexivity|].
  unfold newest_three, token_occurs. rewrite Hs. cbn [existsb].
  assert (Hf : List.filter (fun _ : ConversationTurn => false) (history cm) = []).
  { induction (history cm); [reflexivity|assumption]. }
  rewrite Hf. reflexivity.
Qed.

(** A query of three blanks against a history that says "create". *)
Lemma blank_query_has_no_relevant_context_witness :
  get_relevant_context
    (fst (record_turns (fresh, no_file) [said "create a note" "ok"])) "   " =
  ""%string.
Proof.
  apply blank_query_has_no_relevant_context. reflexivity.
Defined.
End ContextViewProofs.

(** ** Properties of the callers in model.py *)
Module ModelProofs.
Import Context ContextSpec ContextView Model.

(** X10. [classify_and_summarize_response] speaks a response in full
    exactly when it has at most 200 characters, and then speaks it
    unchanged without consulting the language model; a longer response is
    replaced by what the model answers to one prompt, the personal prompt
    when the reported commands are more than three and the response has
    more than 300 characters, the standard prompt otherwise; an exception
    of the model call propagates. *)
Theorem full_response_spoken_iff_short generate_text cm response :
  ((String.length response <= 200)%nat ->
   classify_and_summarize_response generate_text cm response =
     Return {| speak_full_response := true; spoken_response := response |}) /\
  ((200 < String.length response)%nat ->
   let commands := stats_frequently_used_commands (get_stats cm) in
   let prompt :=
     if ((3 <? length commands) && (300 <? String.length response))%nat
     then personal_prompt commands response
     else standard_prompt response in
   classify_and_summarize_response generate_text cm response =
     match generate_text prompt with
     | Return summary =>
         Return {| speak_full_response := false; spoken_response := summary |}
     | Raise e => Raise e
     end) /\
  (forall out,
     classify_and_summarize_response generate_text cm response = Return out ->
     (speak_full_response out = true <-> (String.length response <= 200)%nat)).
Proof.
  unfold classify_and_summarize_response.
  destruct (Nat.ltb_spec 200 (String.length response)) as [Hlong|Hshort].
  - split; [lia|]. split.
    + intros _. cbn zeta.
      destruct ((3 <? _)%nat && (300 <? _)%nat); reflexivity.
    + intros out. 
      destruct ((3 <? _)%nat && (300 <? _)%nat);
        destruct (generate_text _); intros E; try discriminate;
        injection E as <-; cbn [speak_full_response];
        (split; intros Hx; [discriminate Hx|lia]).
  - assert (H300 : (300 <? String.length response)%nat = false)
      by (apply Nat.ltb_ge; lia).
    rewrite H300, andb_false_r.
    split; [reflexivity|]. split; [lia|].
    intros out E. injection E as <-. cbn [speak_full_response].
    split; intros _; [exact Hshort|reflexivity].
Qed.

(** A short answer, with a model that is out of reach. *)
Lemma full_response_spoken_iff_short_witness :
  classify_and_summarize_response (fun _ => Raise Timeout) fresh "Done, sir." =
    Return {| speak_full_response := true; spoken_response := "Done, sir." |}.
Proof.
  destruct (full_response_spoken_iff_short (fun _ => Raise Timeout) fresh
              "Done, sir.") as (Hshort & _).
  apply Hshort. vm_compute. lia.
Defined.
End ModelProofs.

(** ** Further properties of the capability registry *)
Module RemoteViewProofs.
Import Eff Remote RemoteSpec StringFacts RemoteProofs RemoteView.

Section WithRuntime.
Context `{Runtime}.

(** *** Registration, entry by entry *)

Lemma register_tool_object d s :
  register_tool (JDict d) s =
    ({| self :=
          {| base_url := base_url (self s);
             tools := tools (self s) ++ option_list (tool_of (JDict d));
             tool_configs :=
               match config_key (JDict d) with
               | Some k => <[k := JDict d]> (tool_configs (self s))
               | None => tool_configs (self s)
               end |};
        sent := sent s |}, Return tt).
Proof.
  destruct s as [[b ts cs] net].
  unfold register_tool, config_key, tool_of, _create_langchain_tool,
    try_except, bind, lift, modify, ret, set_tool_config, append_tool.
  cbn [getitem get self sent base_url tools tool_configs].
  destruct (assoc "name" d) as [tool_name|]; cbn.
  - destruct tool_name as [| | |n| |]; cbn;
      try (destruct (assoc "description" d); cbn;
           rewrite ?app_nil_r; reflexivity).
    destruct (assoc "description" d) as [descr|]; cbn;
      [|rewrite app_nil_r; reflexivity].
    destruct (tool_accepts n descr); cbn; rewrite ?app_nil_r; reflexivity.
  - rewrite app_nil_r. reflexivity.
Qed.

Lemma register_tool_other entry s :
  ~ is_dict entry -> register_tool entry s = (s, Raise AttributeError).
Proof.
  intros Hn. destruct entry; cbn in Hn; try contradiction; reflexivity.
Qed.

Lemma register_objects entries : forall s,
  Forall is_dict entries ->
  for_each entries register_tool s =
    ({| self :=
          {| base_url := base_url (self s);
             tools := tools (self s) ++ tools_of entries;
             tool_configs := merge_configs entries (tool_configs (self s)) |};
        sent := sent s |}, Return tt).
Proof.
  induction entries as [|entry entries IH]; intros s Hd.
  - destruct s as [[b ts cs] net]. cbn. rewrite app_nil_r. reflexivity.
  - apply Forall_cons in Hd as [Hentry Hd].
    destruct entry as [| | | | |d]; try contradiction.
    cbn [for_each]. unfold bind at 1. rewrite register_tool_object.
    rewrite (IH _ Hd). cbn [self sent base_url tools tool_configs].
    unfold tools_of. cbn [omap list_omap]. unfold merge_configs. cbn [foldl].
    destruct (tool_of (JDict d)); cbn; rewrite <- ?app_assoc; reflexivity.
Qed.

Lemma register_until_other good bad rest : forall s,
  Forall is_dict good -> ~ is_dict bad ->
  for_each (good ++ bad :: rest) register_tool s =
    ({| self :=
          {| base_url := base_url (self s);
             tools := tools (self s) ++ tools_of good;
             tool_configs := merge_configs good (tool_configs (self s)) |};
        sent := sent s |}, Raise AttributeError).
Proof.
  induction good as [|entry good IH]; intros s Hd Hbad.
  - destruct s as [[b ts cs] net]. cbn [app for_each]. unfold bind.
    rewrite (register_tool_other bad _ Hbad). cbn. rewrite app_nil_r.
    reflexivity.
  - apply Forall_cons in Hd as [Hentry Hd].
    destruct entry as [| | | | |d]; try contradiction.
    cbn [app for_each]. unfold bind at 1. rewrite register_tool_object.
    rewrite (IH _ Hd Hbad). cbn [self sent base_url tools tool_configs].
    unfold tools_of. cbn [omap list_omap]. unfold merge_configs. cbn [foldl].
    destruct (tool_of (JDict d)); cbn; rewrite <- ?app_assoc; reflexivity.
Qed.

Lemma merge_lookup entries : forall (m : gmap key json) k,
  merge_configs entries m !! k =
    match last_named k entries with
    | Some e => Some e
    | None => m !! k
    end.
Proof.
  unfold last_named.
  induction entries as [|entry entries IH] using rev_ind; intros m k.
  - reflexivity.
  - rewrite merge_configs_snoc, List.filter_app, last_app. cbn [List.filter].
    destruct (bool_decide_reflect (config_key entry = Some k)) as [E|E].
    + cbn [last]. rewrite E. apply lookup_insert_eq.
    + cbn [last]. destruct (config_key entry) as [k'|]; [|apply IH].
      rewrite lookup_insert_ne by congruence. apply IH.
Qed.

Lemma last_named_In k entries e :
  last_named k entries = Some e -> e ∈ entries /\ config_key e = Some k.
Proof.
  unfold last_named. intros E. apply last_Some in E as [l' E].
  assert (Hin : In e (List.filter (fun e => bool_decide (config_key e = Some k)) entries)).
  { rewrite E. apply in_or_app. right. left. reflexivity. }
  apply filter_In in Hin as [Hin Hk]. split.
  - apply list_elem_of_In. exact Hin.
  - apply bool_decide_eq_true in Hk. exact Hk.
Qed.

Lemma merge_idempotent entries (m : gmap key json) :
  merge_configs entries (merge_configs entries m) = merge_configs entries m.
Proof.
  apply map_eq. intros k. rewrite !merge_lookup.
  destruct (last_named k entries); reflexivity.
Qed.

(** *** Discovery *)

Lemma discover_run srv s r d :
  srv (listing s) = Return r -> status_code r = 200 ->
  body r = Some (JDict d) ->
  discover_tools srv s =
    match iterate (default (JList []) (assoc "tools" d)) with
    | Return entries =>
        match for_each entries register_tool (after_send s (listing s)) with
        | (s', Return _) => (s', Return true)
        | (s', Raise _) => (s', Return false)
        end
    | Raise _ => (after_send s (listing s), Return false)
    end.
Proof.
  intros E Hs Hb.
  unfold discover_tools, try_except, bind, gets, send, ret, lift,
    _register_tools, response_json, get.
  cbn. fold (listing s). rewrite E, Hs, Hb. cbn.
  fold (after_send s (listing s)).
  destruct (iterate _) as [entries|e]; cbn.
  - destruct (for_each entries register_tool _) as [s' [[]|e]]; cbn;
      [reflexivity|].
    destruct (is_ConnectionError e), (is_Timeout e); reflexivity.
  - destruct (is_ConnectionError e), (is_Timeout e); reflexivity.
Qed.

Lemma discover_objects srv s r d entries :
  srv (listing s) = Return r -> status_code r = 200 ->
  body r = Some (JDict d) ->
  default (JList []) (assoc "tools" d) = JList entries ->
  Forall is_dict entries ->
  discover_tools srv s =
    ({| self :=
          {| base_url := base_url (self s);
             tools := tools (self s) ++ tools_of entries;
             tool_configs := merge_configs entries (tool_configs (self s)) |};
        sent := sent s ++ [listing s] |}, Return true).
Proof.
  intros E Hs Hb Ht Hd. rewrite (discover_run srv s r d E Hs Hb), Ht.
  cbn [iterate]. rewrite (register_objects entries _ Hd). reflexivity.
Qed.

(** X11. Discovery appends to the tool list one tool for every listed
    object from which a tool can be built, in listing order, and never
    removes a tool: discovering the same listing a second time on the
    same manager leaves the descriptor set as it was after the first time
    and makes the tool list hold every listed tool twice. *)
Theorem rediscovery_duplicates_tools srv s r d entries :
  srv (listing s) = Return r -> status_code r = 200 ->
  body r = Some (JDict d) ->
  default (JList []) (assoc "tools" d) = JList entries ->
  Forall is_dict entries ->
  let s1 := fst (discover_tools srv s) in
  let s2 := fst (discover_tools srv s1) in
  get_tools (self s1) = get_tools (self s) ++ tools_of entries /\
  get_tools (self s2) =
    get_tools (self s) ++ tools_of entries ++ tools_of entries /\
  tool_configs (self s2) = tool_configs (self s1).
Proof.
  intros E Hs Hb Ht Hd s1 s2.
  assert (E1 : discover_tools srv s = (s1, Return true)).
  { unfold s1. rewrite (discover_objects srv s r d entries E Hs Hb Ht Hd).
    reflexivity. }
  assert (Hs1 : s1 = {| self :=
          {| base_url := base_url (self s);
             tools := tools (self s) ++ tools_of entries;
             tool_configs := merge_configs entries (tool_configs (self s)) |};
        sent := sent s ++ [listing s] |}).
  { unfold s1. rewrite (discover_objects srv s r d entries E Hs Hb Ht Hd).
    reflexivity. }
  assert (El : listing s1 = listing s) by (rewrite Hs1; reflexivity).
  unfold s2. rewrite (discover_objects srv s1 r d entries); try assumption;
    [|rewrite El; exact E].
  rewrite Hs1. unfold get_tools. cbn [fst self tools tool_configs].
  split; [reflexivity|]. split; [rewrite <- app_assoc; reflexivity|].
  apply merge_idempotent.
Qed.

(** X12. When one listing names a capability more than once, the
    descriptor that [get_tool_info] returns after the discovery is the
    last listed one; a name that the listing does not use keeps what
    [get_tool_info] returned before, the empty object if it was unknown. *)
Theorem last_listed_descriptor_wins srv s r d entries tool_name :
  srv (listing s) = Return r -> status_code r = 200 ->
  body r = Some (JDict d) ->
  default (JList []) (assoc "tools" d) = JList entries ->
  Forall is_dict entries ->
  get_tool_info (self (fst (discover_tools srv s))) tool_name =
    match last_named (KStr tool_name) entries with
    | Some entry => entry
    | None => get_tool_info (self s) tool_name
    end.
Proof.
  intros E Hs Hb Ht Hd.
  rewrite (discover_objects srv s r d entries E Hs Hb Ht Hd).
  unfold get_tool_info. cbn [fst self tool_configs]. rewrite merge_lookup.
  destruct (last_named (KStr tool_name) entries); reflexivity.
Qed.

(** X13. A listed entry that is not an object ends the discovery: it
    reports failure, the entries listed after it are not looked at, and
    the objects listed before it stay registered, in the descriptor set
    and in the tool list. *)
Theorem non_object_entry_aborts_discovery srv s r d good bad rest :
  srv (listing s) = Return r -> status_code r = 200 ->
  body r = Some (JDict d) ->
  default (JList []) (assoc "tools" d) = JList (good ++ bad :: rest) ->
  Forall is_dict good -> ~ is_dict bad ->
  let s' := fst (discover_tools srv s) in
  snd (discover_tools srv s) = Return false /\
  tool_configs (self s') = merge_configs good (tool_configs (self s)) /\
  get_tools (self s') = get_tools (self s) ++ tools_of good.
Proof.
  intros E Hs Hb Ht Hd Hbad s'. unfold s'.
  rewrite (discover_run srv s r d E Hs Hb), Ht. cbn [iterate].
  rewrite (register_until_other good bad rest _ Hd Hbad). cbn.
  repeat split.
Qed.

(** *** The comprehension of [list_available_tools] *)

Lemma describe_all_Return configs :
  Forall described configs -> exists items, describe_all configs = Return items.
Proof.
  induction 1 as [|c configs [item Hc] _ [items IH]]; cbn [describe_all].
  - eauto.
  - rewrite Hc, IH. eauto.
Qed.

Lemma describe_all_Raise configs e :
  describe_all configs = Raise e ->
  exists c, c ∈ configs /\ describe c = Raise e.
Proof.
  induction configs as [|c configs IH]; cbn [describe_all]; [discriminate|].
  destruct (describe c) as [item|e'] eqn:Hc.
  - destruct (describe_all configs) as [items|e'']; [discriminate|].
    intros [= <-]. destruct (IH eq_refl) as (c' & Hin & Hc').
    exists c'. split; [apply elem_of_cons; right; exact Hin|exact Hc'].
  - intros [= <-]. exists c. split; [apply elem_of_cons; left; reflexivity|exact Hc].
Qed.

Lemma describe_all_fails configs c e :
  c ∈ configs -> describe c = Raise e ->
  exists e', describe_all configs = Raise e'.
Proof.
  induction configs as [|c' configs IH]; intros Hin Hc.
  - apply elem_of_nil in Hin. contradiction.
  - cbn [describe_all]. destruct (describe c') as [item|e'] eqn:Hc'; [|eauto].
    apply elem_of_cons in Hin as [->|Hin]; [congruence|].
    destruct (IH Hin Hc) as [e'' ->]. eauto.
Qed.

(** X14. An object with a string name and no description is stored in
    the descriptor set and not in the tool list: [get_tool_info] returns
    it, no tool is made for it, and [list_available_tools] raises from
    then on. *)
Theorem entry_without_description_is_half_registered d tool_name s :
  assoc "name" d = Some (JStr tool_name) ->
  assoc "description" d = None ->
  let s' := fst (_register_tools (JList [JDict d]) s) in
  snd (_register_tools (JList [JDict d]) s) = Return tt /\
  get_tool_info (self s') tool_name = JDict d /\
  get_tools (self s') = get_tools (self s) /\
  exists e, list_available_tools (self s') = Raise e.
Proof.
  intros Hn Hd s'.
  assert (E : _register_tools (JList [JDict d]) s =
              ({| self :=
                    {| base_url := base_url (self s);
                       tools := tools (self s);
                       tool_configs :=
                         <[KStr tool_name := JDict d]> (tool_configs (self s)) |};
                  sent := sent s |}, Return tt)).
  { unfold _register_tools, bind, lift. cbn [iterate].
    rewrite register_objects by (repeat constructor).
    unfold tools_of, merge_configs, tool_of, _create_langchain_tool, config_key.
    cbn [omap list_omap foldl getitem]. rewrite Hn, Hd. cbn.
    rewrite app_nil_r. reflexivity. }
  unfold s'. rewrite E. cbn [fst snd self tools tool_configs].
  split; [reflexivity|]. split; [|split; [reflexivity|]].
  - unfold get_tool_info. cbn [tool_configs]. rewrite lookup_insert_eq.
    reflexivity.
  - unfold list_available_tools. cbn [tool_configs].
    apply (describe_all_fails _ (JDict d) (KeyError "description")).
    + apply list_elem_of_fmap. exists (KStr tool_name, JDict d).
      split; [reflexivity|]. apply elem_of_map_to_list, lookup_insert_eq.
    + unfold describe. cbn [getitem]. rewrite Hn, Hd. reflexivity.
Qed.

(** *** Liveness probe *)

Lemma health_check_run srv s :
  health_check srv s =
    (after_send s (GET (base_url (self s) +:+ "/health") [] 5),
     Return match srv (GET (base_url (self s) +:+ "/health") [] 5) with
            | Return r => status_code r =? 200
            | Raise _ => false
            end).
Proof.
  unfold health_check, try_except, bind, gets, send, ret. cbn.
  destruct (srv _); reflexivity.
Qed.

(** X15. [health_check] never raises and never changes the manager: it
    sends one GET to [/health] with a timeout of 5 and answers true
    exactly when the server answers with status 200. *)
Theorem health_check_is_true_iff_200 srv s :
  let probe := GET (base_url (self s) +:+ "/health") [] 5 in
  exists alive,
    health_check srv s = (after_send s probe, Return alive) /\
    (alive = true <-> exists r, srv probe = Return r /\ status_code r = 200).
Proof.
  intros probe. rewrite health_check_run. fold probe.
  destruct (srv probe) as [r|e].
  - exists (status_code r =? 200). split; [reflexivity|]. split.
    + intros Hs. exists r. split; [reflexivity|]. apply Z.eqb_eq. exact Hs.
    + intros (r' & Er & Hs). injection Er as <-. apply Z.eqb_eq. exact Hs.
  - exists false. split; [reflexivity|]. split; [discriminate|].
    intros (r' & Er & _). discriminate.
Qed.

(** *** The marks of the result texts *)

Lemma append_assoc (a b c : string) : ((a +:+ b) +:+ c = a +:+ (b +:+ c))%string.
Proof.
  induction a as [|x a IH]; [reflexivity|].
  rewrite !append_cons, IH. reflexivity.
Qed.

Lemma prefix_append p a b :
  String.prefix p a = true -> String.prefix p (a +:+ b) = true.
Proof.
  intros Hp. apply prefix_spec in Hp as [r ->]. apply prefix_spec.
  exists (r +:+ b)%string. apply append_assoc.
Qed.

Lemma marks_exclusive text :
  marked_ok text = true -> marked_failed text = true -> False.
Proof.
  unfold marked_ok, marked_failed. intros Ho Hf.
  apply prefix_spec in Ho as [a ->]. apply prefix_spec in Hf as [b Hb].
  rewrite !append_cons in Hb. discriminate Hb.
Qed.

Ltac mark :=
  unfold marked_ok, marked_failed, msg_unsupported, msg_plain_success,
    msg_http, msg_timeout, msg_connection, msg_exception, msg_failed, msg_error;
  rewrite !append_cons; reflexivity.

Lemma handler_text_failed tool_name e :
  marked_failed
    (if is_Timeout e then msg_timeout tool_name
     else if is_ConnectionError e then msg_connection tool_name
     else msg_exception tool_name (str_exn e)) = true.
Proof. destruct (is_Timeout e); [|destruct (is_ConnectionError e)]; mark. Qed.

Lemma rstrip_nonspace c s :
  isspace c = false -> rstrip (String c s) = String c (rstrip s).
Proof. intros Hc. cbn [rstrip]. rewrite Hc. destruct (rstrip s); reflexivity. Qed.

Lemma strip_keeps_mark c1 c2 c3 s :
  isspace c1 = false -> isspace c2 = false -> isspace c3 = false ->
  strip (String c1 (String c2 (String c3 s))) =
    String c1 (String c2 (String c3 (rstrip s))).
Proof.
  intros H1 H2 H3. unfold strip. cbn [lstrip]. rewrite H1.
  rewrite !rstrip_nonspace by assumption. reflexivity.
Qed.

Lemma foldl_items_head (f : string * json -> string) c1 c2 c3 items : forall h,
  exists rest,
    foldl (fun response kv => response +:+ f kv)%string
          (String c1 (String c2 (String c3 h))) items =
    String c1 (String c2 (String c3 rest)).
Proof.
  induction items as [|kv items IH]; intros h; cbn [foldl]; [eauto|].
  rewrite !append_cons. apply IH.
Qed.

Lemma format_is_marked tool_name result :
  marked_ok (_format_tool_response tool_name result) = true \/
  marked_failed (_format_tool_response tool_name result) = true.
Proof.
  unfold _format_tool_response.
  destruct result as [| | | | |d]; try (left; mark).
  destruct (assoc "success" d) as [success|].
  - destruct (truthy success); [left|right; mark].
    assert (H0 : marked_ok ("✅ " +:+ tool_name +:+ " completed successfully") = true)
      by mark.
    unfold marked_ok in *.
    repeat match goal with
           | |- context [if ?b then _ else _] => destruct b
           end;
      repeat apply prefix_append; exact H0.
  - destruct (assoc "error" d); [right; mark|left].
    destruct (foldl_items_head
                (fun kv => if is_container (snd kv)
                           then "📋 " +:+ fst kv +:+ ": " +:+ json_dumps (snd kv) +:+ nl
                           else "📋 " +:+ fst kv +:+ ": " +:+ fmt (snd kv) +:+ nl)%string
                "226"%char "156"%char "133"%char d
                (" " +:+ tool_name +:+ " response:" +:+ nl)%string) as [rest Hr].
    match goal with
    | |- marked_ok (strip ?x) = true =>
        assert (E : x = String "226" (String "156" (String "133" rest)))
    end.
    { rewrite <- Hr. clear Hr. generalize d. intros items.
      assert (Hinit : ("✅ " +:+ tool_name +:+ " response:" +:+ nl)%string =
                      String "226" (String "156" (String "133"
                        (" " +:+ tool_name +:+ " response:" +:+ nl)%string)))
        by reflexivity.
      rewrite Hinit. generalize (String "226" (String "156" (String "133"
                        (" " +:+ tool_name +:+ " response:" +:+ nl)%string))).
      induction items as [|kv items IH]; intros acc; cbn [foldl]; [reflexivity|].
      rewrite <- IH. f_equal.
      destruct (is_container (snd kv)); rewrite ?append_assoc; reflexivity. }
    rewrite E, strip_keeps_mark by reflexivity.
    apply prefix_spec. exists (rstrip rest). reflexivity.
Qed.

(** *** Invocation *)

Lemma answer_text_marked tool_name o :
  (marked_ok (answer_text tool_name o) = true \/
   marked_failed (answer_text tool_name o) = true) /\
  (marked_ok (answer_text tool_name o) = true ->
   exists r, o = Return r /\ status_code r = 200).
Proof.
  unfold answer_text. destruct o as [r|e].
  - destruct (Z.eqb_spec (status_code r) 200) as [Hs|Hs].
    + split; [|eauto]. destruct (body r); [apply format_is_marked|left; mark].
    + assert (Hf : marked_failed (msg_http tool_name (status_code r) (text r)) = true)
        by mark.
      split; [right; exact Hf|]. intros Ho. exfalso.
      exact (marks_exclusive _ Ho Hf).
  - pose proof (handler_text_failed tool_name e) as Hf.
    split; [right; exact Hf|]. intros Ho. exfalso.
    exact (marks_exclusive _ Ho Hf).
Qed.

(** Either the call reaches the server, or it returns a failure text and
    leaves the state as it was. *)
Lemma execute_cases srv tool_name kw s :
  (exists config endpoint method,
     tool_configs (self s) !! KStr tool_name = Some config /\
     getitem config "endpoint" = Return endpoint /\
     getitem config "method" = Return (JStr method) /\
     (upper method = "POST"%string \/ upper method = "GET"%string)) \/
  (exists text,
     _execute_remote_tool srv tool_name kw s = (s, Return text) /\
     marked_failed text = true).
Proof.
  destruct (tool_configs (self s) !! KStr tool_name) as [config|] eqn:Ec.
  2:{ right. eexists. split; [apply execute_absent; exact Ec|mark]. }
  destruct (getitem config "endpoint") as [endpoint|e1] eqn:Ee.
  2:{ right.
      exists (if is_Timeout e1 then msg_timeout tool_name
              else if is_ConnectionError e1 then msg_connection tool_name
              else msg_exception tool_name (str_exn e1)).
      split.
      - unfold _execute_remote_tool, try_except, bind, lookup_config, lift.
        rewrite Ec, Ee. cbn. unfold ret.
        destruct (is_Timeout e1); [|destruct (is_ConnectionError e1)];
          reflexivity.
      - apply handler_text_failed. }
  destruct (getitem config "method") as [method|e2] eqn:Em.
  2:{ right.
      exists (if is_Timeout e2 then msg_timeout tool_name
              else if is_ConnectionError e2 then msg_connection tool_name
              else msg_exception tool_name (str_exn e2)).
      split.
      - unfold _execute_remote_tool, try_except, bind, lookup_config, lift.
        rewrite Ec, Ee, Em. cbn. unfold ret.
        destruct (is_Timeout e2); [|destruct (is_ConnectionError e2)];
          reflexivity.
      - apply handler_text_failed. }
  destruct method as [| | |m| |];
    try (right; eexists; split;
         [unfold _execute_remote_tool, try_except, bind, lookup_config, lift,
            gets, upper_of; rewrite Ec, Ee, Em; reflexivity|mark]).
  destruct (String.eqb (upper m) "POST") eqn:Hp.
  { left. exists config, endpoint, m. apply String.eqb_eq in Hp. auto. }
  destruct (String.eqb (upper m) "GET") eqn:Hg.
  { left. exists config, endpoint, m. apply String.eqb_eq in Hg. auto. }
  right. eexists. split.
  - unfold _execute_remote_tool, try_except, bind, lookup_config, lift, gets,
      upper_of, ret.
    rewrite Ec, Ee, Em. cbn. rewrite Hp, Hg. reflexivity.
  - mark.
Qed.

(** X16. An invocation never changes the manager and sends at most one
    request: none when it fails before reaching the server (unknown name,
    config without endpoint or method, method that is not a string or
    neither POST nor GET in any letter case), and otherwise one POST or
    GET that carries the caller's arguments and a timeout of 30. *)
Theorem invocation_sends_at_most_one_request srv tool_name kw s :
  let s' := fst (_execute_remote_tool srv tool_name kw s) in
  self s' = self s /\
  (sent s' = sent s \/
   exists url, sent s' = sent s ++ [POST url kw 30] \/
               sent s' = sent s ++ [GET url kw 30]).
Proof.
  intros s'. unfold s'.
  destruct (execute_cases srv tool_name kw s)
    as [(config & endpoint & method & Ec & Ee & Em & Hm)|(text & E & _)].
  - rewrite (execute_registered srv tool_name kw s config endpoint method
               Ec Ee Em Hm).
    cbn [fst after_send self sent]. split; [reflexivity|]. right.
    exists (base_url (self s) +:+ fmt endpoint)%string. unfold request_of.
    destruct Hm as [-> | ->]; cbn; auto.
  - rewrite E. cbn. auto.
Qed.

(** X17. Every text that an invocation returns begins with the success
    mark or with the failure mark, and a text with the success mark is
    returned only after a request was sent and the server answered it
    with status 200. *)
Theorem every_invocation_result_is_marked srv tool_name kw s :
  exists text,
    snd (_execute_remote_tool srv tool_name kw s) = Return text /\
    (marked_ok text = true \/ marked_failed text = true) /\
    (marked_ok text = true ->
     exists request r,
       sent (fst (_execute_remote_tool srv tool_name kw s)) =
         sent s ++ [request] /\
       srv request = Return r /\ status_code r = 200).
Proof.
  destruct (execute_cases srv tool_name kw s)
    as [(config & endpoint & method & Ec & Ee & Em & Hm)|(text & E & Hf)].
  - rewrite (execute_registered srv tool_name kw s config endpoint method
               Ec Ee Em Hm).
    cbn [fst snd after_send sent].
    destruct (answer_text_marked tool_name
                (srv (request_of (base_url (self s)) endpoint method kw)))
      as [Hm1 Hm2].
    eexists. split; [reflexivity|]. split; [exact Hm1|].
    intros Ho. destruct (Hm2 Ho) as (r & Er & Hs). eauto.
  - rewrite E. cbn [fst snd]. exists text. split; [reflexivity|].
    split; [auto|]. intros Ho. exfalso. exact (marks_exclusive _ Ho Hf).
Qed.

(** *** Building the manager *)

Lemma list_available_after_objects entries m :
  tool_configs m = replaced_by entries ->
  Forall described entries ->
  exists items, list_available_tools m = Return items.
Proof.
  intros Hm Hd. unfold list_available_tools. apply describe_all_Return.
  apply Forall_forall. intros c Hc. rewrite Hm in Hc.
  apply list_elem_of_fmap in Hc as ([k c'] & -> & Hin).
  apply elem_of_map_to_list in Hin. unfold replaced_by in Hin.
  rewrite merge_lookup, lookup_empty in Hin.
  destruct (last_named k entries) as [e|] eqn:El; [|discriminate].
  injection Hin as <-. apply last_named_In in El as [He _].
  rewrite Forall_forall in Hd. exact (Hd e He).
Qed.

Lemma initialize_objects srv base g net r1 r d entries :
  srv (GET (base +:+ "/health") [] 5) = Return r1 -> status_code r1 = 200 ->
  srv (GET (base +:+ "/gmail/tools/list") [] 10) = Return r ->
  status_code r = 200 ->
  body r = Some (JDict d) ->
  default (JList []) (assoc "tools" d) = JList entries ->
  Forall is_dict entries ->
  initialize_remote_tools srv base g net =
    ({| remote_tools_manager := Some (loaded base entries);
        remote_tools := tools_of entries |},
     net ++ [GET (base +:+ "/health") [] 5;
             GET (base +:+ "/gmail/tools/list") [] 10],
     match list_available_tools (loaded base entries) with
     | Return _ => true
     | Raise _ => false
     end).
Proof.
  intros E1 H1 E Hs Hb Ht Hd. unfold initialize_remote_tools.
  rewrite health_check_run. cbn [self init base_url]. rewrite E1, H1. cbn.
  rewrite (discover_objects srv _ r d entries); try assumption.
  cbn [self sent after_send base_url tools tool_configs init app get_tools].
  fold (replaced_by entries). fold (loaded base entries).
  rewrite <- app_assoc. cbn [app].
  destruct (list_available_tools (loaded base entries)); reflexivity.
Qed.

(** X18. [initialize_remote_tools] builds a new manager each time, so
    what an earlier manager had discovered is not carried over.  When the
    server is alive and lists objects that all have a name and a
    description, the call succeeds, the new manager holds exactly the
    listed descriptors, and [remote_tools] becomes the tools built from
    the listing.  When the liveness probe fails, the call fails after that
    one request: the global manager is replaced by an empty one, and
    [remote_tools] keeps the tools of the manager that is gone. *)
Theorem initialize_builds_a_new_manager srv base g net :
  let probe := GET (base +:+ "/health") [] 5 in
  let lst := GET (base +:+ "/gmail/tools/list") [] 10 in
  (forall r1 r d entries,
     srv probe = Return r1 -> status_code r1 = 200 ->
     srv lst = Return r -> status_code r = 200 ->
     body r = Some (JDict d) ->
     default (JList []) (assoc "tools" d) = JList entries ->
     Forall is_dict entries ->
     Forall described entries ->
     initialize_remote_tools srv base g net =
       ({| remote_tools_manager :=
             Some {| base_url := base; tools := tools_of entries;
                     tool_configs := replaced_by entries |};
           remote_tools := tools_of entries |},
        net ++ [probe; lst], true)) /\
  ((forall r1, srv probe = Return r1 -> status_code r1 <> 200) ->
   initialize_remote_tools srv base g net =
     ({| remote_tools_manager := Some (init base);
         remote_tools := remote_tools g |},
      net ++ [probe], false)).
Proof.
  intros probe lst. split.
  - intros r1 r d entries E1 H1 E Hs Hb Ht Hd Hdesc.
    rewrite (initialize_objects srv base g net r1 r d entries); try assumption.
    destruct (list_available_after_objects entries (loaded base entries)
                eq_refl Hdesc) as [items ->].
    reflexivity.
  - unfold initialize_remote_tools.
    rewrite health_check_run. cbn [self init base_url]. fold probe.
    intros Hdead. destruct (srv probe) as [r1|e] eqn:E1; [|reflexivity].
    destruct (Z.eqb_spec (status_code r1) 200) as [H1|H1]; [|reflexivity].
    exfalso. exact (Hdead r1 eq_refl H1).
Qed.
End WithRuntime.

(** *** Instances *)

#[local] Existing Instance sample_runtime.

(** The listing [send_email], [read_inbox] discovered twice. *)
Lemma rediscovery_duplicates_tools_witness :
  let srv := listing_of [send_email; read_inbox] in
  let s2 := fst (discover_tools srv (fst (discover_tools srv started))) in
  map lt_name (get_tools (self s2)) =
    ["send_email"; "read_inbox"; "send_email"; "read_inbox"]%string.
Proof.
  intros srv s2.
  destruct (rediscovery_duplicates_tools srv started
              {| status_code := 200; text := "";
                 body := Some (JDict [("tools"%string, JList [send_email; read_inbox])]) |}
              [("tools"%string, JList [send_email; read_inbox])]
              [send_email; read_inbox] eq_refl eq_refl eq_refl eq_refl)
    as (_ & H2 & _).
  - repeat constructor.
  - fold srv s2 in H2. rewrite H2. vm_compute. reflexivity.
Defined.

(** [send_email] listed twice, with two descriptors. *)
Lemma last_listed_descriptor_wins_witness :
  get_tool_info
    (self (fst (discover_tools (listing_of [send_email; send_email_v2]) started)))
    "send_email" = send_email_v2.
Proof.
  rewrite (last_listed_descriptor_wins
             (listing_of [send_email; send_email_v2]) started
             {| status_code := 200; text := "";
                body := Some (JDict [("tools"%string,
                                      JList [send_email; send_email_v2])]) |}
             [("tools"%string, JList [send_email; send_email_v2])]
             [send_email; send_email_v2] "send_email"
             eq_refl eq_refl eq_refl eq_refl).
  - vm_compute. reflexivity.
  - repeat constructor.
Defined.

(** A string listed between [send_email] and [read_inbox]. *)
Lemma non_object_entry_aborts_discovery_witness :
  let srv := listing_of [send_email; JStr "oops"; read_inbox] in
  snd (discover_tools srv started) = Return false /\
  map lt_name (get_tools (self (fst (discover_tools srv started)))) =
    ["send_email"%string].
Proof.
  intros srv.
  destruct (non_object_entry_aborts_discovery srv started
              {| status_code := 200; text := "";
                 body := Some (JDict [("tools"%string,
                   JList [send_email; JStr "oops"; read_inbox])]) |}
              [("tools"%string, JList [send_email; JStr "oops"; read_inbox])]
              [send_email] (JStr "oops") [read_inbox]
              eq_refl eq_refl eq_refl eq_refl)
    as (Hr & _ & Ht).
  - repeat constructor.
  - intros [].
  - split; [exact Hr|]. rewrite Ht. vm_compute. reflexivity.
Defined.

(** An entry named [archive] that has no description. *)
Lemma entry_without_description_is_half_registered_witness :
  let s' := fst (_register_tools (JList [nameless_purpose]) started) in
  get_tool_info (self s') "archive" = nameless_purpose /\
  get_tools (self s') = [].
Proof.
  intros s'.
  destruct (entry_without_description_is_half_registered
              [("name", JStr "archive"); ("endpoint", JStr "/gmail/archive");
               ("method", JStr "POST")]%string "archive" started
              eq_refl eq_refl)
    as (_ & Hi & Ht & _).
  split; [exact Hi|exact Ht].
Defined.

(** A server that is alive and lists [send_email], and one that cannot
    be reached. *)
Lemma initialize_builds_a_new_manager_witness :
  snd (initialize_remote_tools (healthy [send_email]) "http://localhost:8000"
         no_globals []) = true /\
  initialize_remote_tools unreachable "http://localhost:8000"
    {| remote_tools_manager := Some (self first_epoch);
       remote_tools := tools (self first_epoch) |} [] =
    ({| remote_tools_manager := Some (init "http://localhost:8000");
        remote_tools := tools (self first_epoch) |},
     [GET "http://localhost:8000/health" [] 5], false).
Proof.
  split.
  - destruct (initialize_builds_a_new_manager (healthy [send_email])
                "http://localhost:8000" no_globals []) as [Hok _].
    rewrite (Hok {| status_code := 200; text := "ok"; body := None |}
                 {| status_code := 200; text := "";
                    body := Some (JDict [("tools"%string, JList [send_email])]) |}
                 [("tools"%string, JList [send_email])] [send_email]
                 eq_refl eq_refl eq_refl eq_refl eq_refl eq_refl).
    + reflexivity.
    + repeat constructor.
    + constructor; [|constructor]. eexists. reflexivity.
  - destruct (initialize_builds_a_new_manager unreachable
                "http://localhost:8000"
                {| remote_tools_manager := Some (self first_epoch);
                   remote_tools := tools (self first_epoch) |} []) as [_ Hdead].
    apply Hdead. intros r1 Hr. discriminate Hr.
Defined.
End RemoteViewProofs.

(** ** Properties of creating and listing reminders *)
Module ReminderToolsProofs.
Import Reminders RemindersSpec StringFacts RemindersProofs ReminderTools.

Section WithCalendar.
Context `{Calendar}.

Lemma failed_text e : String.prefix "❌" (msg_not_created e) = true.
Proof. reflexivity. Qed.

Lemma created_text task T : String.prefix "✅" (msg_created task T) = true.
Proof. reflexivity. Qed.

(** [create_reminder] by cases on its input. *)
Lemma create_reminder_cases now input f :
  (exists e, create_reminder now input f = (msg_not_created e, f) /\
     (forall task s, in_task input = Some task ->
        in_datetime input = Some s -> remind_time_of now s = Raise e)) \/
  (exists task s T,
     in_task input = Some task /\ in_datetime input = Some s /\
     remind_time_of now s = Return T /\
     create_reminder now input f =
       (msg_created task T,
        Stored (load_reminders f ++
          [{| id := Z.of_nat (length (load_reminders f)) + 1;
              task := task;
              description := default ""%string (in_description input);
              datetime := strftime_minutes (T / minute);
              created_at := strftime_minutes (now / minute);
              completed := false;
              notified := Some false |}]))).
Proof.
  unfold create_reminder.
  destruct (in_task input) as [task|].
  2:{ left. exists (KeyError "task"). split; [reflexivity|]. intros; discriminate. }
  destruct (in_datetime input) as [s|].
  2:{ left. exists (KeyError "datetime"). split; [reflexivity|]. intros; discriminate. }
  destruct (remind_time_of now s) as [T|e] eqn:HT.
  - right. exists task, s, T.
    split; [reflexivity|split; [reflexivity|split; [exact HT|reflexivity]]].
  - left. exists e. split; [reflexivity|]. intros ? ? [= <-] [= <-]. exact HT.
Qed.

Lemma numbered_snoc (l : list reminder) r :
  numbered l -> id r = Z.of_nat (length l) + 1 -> numbered (l ++ [r]).
Proof.
  unfold numbered. intros Hl Hr.
  rewrite map_app, length_app, Hl. cbn [length map].
  rewrite Nat.add_1_r, seq_S, map_app. cbn [map].
  rewrite Hr. do 2 f_equal. lia.
Qed.

Lemma id_mark now r : id (mark now r) = id r.
Proof. unfold mark. destruct (decide (due now r)); reflexivity. Qed.

Lemma unflagged_mark now r : unflagged (mark now r) = unflagged r.
Proof. unfold mark. destruct (decide (due now r)); reflexivity. Qed.

Lemma unflagged_swept now l : map unflagged (swept now l) = map unflagged l.
Proof.
  induction l as [|r l IH]; [reflexivity|]. cbn [swept].
  destruct (decide (unreadable r)); [reflexivity|].
  cbn [map]. rewrite unflagged_mark, IH. reflexivity.
Qed.

Lemma id_swept now l : map id (swept now l) = map id l.
Proof.
  pose proof (f_equal (map id) (unflagged_swept now l)) as E.
  rewrite !map_map in E. exact E.
Qed.

Lemma numbered_swept now l : numbered l -> numbered (swept now l).
Proof.
  unfold numbered. rewrite length_swept, id_swept. auto.
Qed.

Lemma step_numbered f e :
  numbered (load_reminders f) -> numbered (load_reminders (step f e)).
Proof.
  intros Hf. destruct e as [now input|now]; cbn [step].
  - destruct (create_reminder_cases now input f)
      as [(e & -> & _)|(task & s & T & _ & _ & _ & ->)]; cbn [snd].
    + exact Hf.
    + cbn [load_reminders]. apply numbered_snoc; [exact Hf|reflexivity].
  - rewrite cycle_store. apply numbered_swept, Hf.
Qed.

(** X20: whatever reminders are created and whenever the scheduler runs,
    the ids of the stored reminders count them from 1 in store order,
    provided they did so at the start (as they do for a missing or an
    unreadable file). *)
Theorem reminder_ids_count_from_one events : forall f,
  numbered (load_reminders f) ->
  numbered (load_reminders (foldl step f events)).
Proof.
  induction events as [|e events IH]; intros f Hf; cbn [foldl].
  - exact Hf.
  - apply IH, step_numbered, Hf.
Qed.

(** X19: a call of [create_reminder] either fails, answers with a text
    that starts with the failure mark and leaves the store as it was, or
    succeeds, answers with a text that starts with the success mark and
    stores the old reminders followed by exactly one new one, which is
    neither completed nor notified. *)
Theorem failed_creation_leaves_store_untouched now input f :
  let reply := fst (create_reminder now input f) in
  let f' := snd (create_reminder now input f) in
  (String.prefix "❌" reply = true /\ f' = f) \/
  (String.prefix "✅" reply = true /\
   exists r, f' = Stored (load_reminders f ++ [r]) /\
     in_task input = Some (task r) /\
     completed r = false /\ notified r = Some false /\
     created_at r = strftime_minutes (now / minute)).
Proof.
  cbv zeta.
  destruct (create_reminder_cases now input f)
    as [(e & -> & _)|(task & s & T & Htask & _ & _ & ->)]; cbn [fst snd].
  - left. split; [apply failed_text|reflexivity].
  - right. split; [apply created_text|].
    eexists. split; [reflexivity|]. cbn.
    split; [exact Htask|]. split; [reflexivity|]. split; reflexivity.
Qed.

Lemma plus_inv t d x :
  plus t d = Return x -> x = t + d /\ 0 <= x < instant_end.
Proof.
  unfold plus.
  destruct (0 <=? t + d) eqn:H0; [|discriminate].
  destruct (t + d <? instant_end) eqn:H1; [|discriminate].
  intros [= <-]. lia.
Qed.

Lemma replace_hm_inv t h m x :
  replace_hm t h m = Return x ->
  x = t / day * day + h * hour + m * minute /\
  0 <= h <= 23 /\ 0 <= m <= 59.
Proof.
  unfold replace_hm.
  destruct (0 <=? h) eqn:H0; [|discriminate].
  destruct (h <=? 23) eqn:H1; [|discriminate].
  destruct (0 <=? m) eqn:H2; [|discriminate].
  destruct (m <=? 59) eqn:H3; [|discriminate].
  intros [= <-]. lia.
Qed.

Lemma clock_in_day h m :
  0 <= h <= 23 -> 0 <= m <= 59 -> 0 <= h * hour + m * minute < day.
Proof. unfold day, hour, minute. lia. Qed.

Lemma day_floor t : t / day * day <= t < t / day * day + day.
Proof.
  pose proof (Z.mod_pos_bound t day ltac:(reflexivity)).
  pose proof (Z.div_mod t day ltac:(discriminate)). lia.
Qed.

Lemma day_parts k x : 0 <= x < day -> (k * day + x) / day = k /\ (k * day + x) mod day = x.
Proof.
  intros Hx. split.
  - rewrite Z.div_add_l by discriminate. rewrite Z.div_small by exact Hx. lia.
  - rewrite Z.add_comm, Z_mod_plus_full. apply Z.mod_small, Hx.
Qed.

Lemma t_not_relative (s : string) c rest :
  lower s = String c rest -> c <> "i"%char -> match_relative s = None.
Proof.
  intros Hs Hc. destruct s as [|c1 [|c2 [|c3 s]]]; try reflexivity.
  cbn [lower] in Hs. injection Hs as Hc1 _.
  cbn [match_relative]. rewrite Hc1.
  destruct (Ascii.eqb_spec c "i"); [contradiction|reflexivity].
Qed.

Lemma today_not_relative s :
  String.prefix "today" (lower s) = true -> match_relative s = None.
Proof.
  intros [b Hb]%prefix_spec.
  apply (t_not_relative s _ _ Hb). discriminate.
Qed.

Lemma tomorrow_not_relative s :
  String.prefix "tomorrow" (lower s) = true -> match_relative s = None.
Proof.
  intros [b Hb]%prefix_spec.
  apply (t_not_relative s _ _ Hb). discriminate.
Qed.

Lemma tomorrow_not_today s :
  String.prefix "tomorrow" (lower s) = true ->
  String.prefix "today" (lower s) = false.
Proof. intros [b ->]%prefix_spec. reflexivity. Qed.

(** X21: a request that starts with "today" and is accepted gets an
    instant after now and at most one day later, at the hour and minute
    that follow the first blank of the request: a clock time that has
    passed today is moved to the next day. *)
Theorem today_request_falls_within_a_day now s T :
  String.prefix "today" (lower s) = true ->
  remind_time_of now s = Return T ->
  now < T <= now + day /\
  exists time_part h m,
    after_blank s = Return time_part /\
    parse_clock time_part = Return (h, m) /\
    T mod day = h * hour + m * minute.
Proof.
  intros Hs. unfold remind_time_of.
  rewrite (today_not_relative s Hs), Hs.
  destruct (after_blank s) as [time_part|] eqn:Ha; [|discriminate].
  destruct (parse_clock time_part) as [[h m]|] eqn:Hp; [|discriminate].
  destruct (replace_hm now h m) as [R|] eqn:HR; [|discriminate].
  apply replace_hm_inv in HR as (-> & Hh & Hm).
  pose proof (clock_in_day h m Hh Hm) as Hx.
  pose proof (day_floor now) as Hd.
  destruct (_ <=? now) eqn:Hle.
  - intros (-> & _)%plus_inv. apply Z.leb_le in Hle. split; [lia|].
    exists time_part, h, m. split; [reflexivity|]. split; [exact Hp|].
    replace (now / day * day + h * hour + m * minute + day)
      with ((now / day + 1) * day + (h * hour + m * minute)) by lia.
    apply day_parts, Hx.
  - intros [= <-]. apply Z.leb_gt in Hle. split; [lia|].
    exists time_part, h, m. split; [reflexivity|]. split; [exact Hp|].
    rewrite <- Z.add_assoc. apply day_parts, Hx.
Qed.

(** X22: a request that starts with "tomorrow" and is accepted gets an
    instant on the calendar day after now, at the hour and minute that
    follow the first blank of the request. *)
Theorem tomorrow_request_falls_on_next_day now s T :
  String.prefix "tomorrow" (lower s) = true ->
  remind_time_of now s = Return T ->
  T / day = now / day + 1 /\
  exists time_part h m,
    after_blank s = Return time_part /\
    parse_clock time_part = Return (h, m) /\
    T mod day = h * hour + m * minute.
Proof.
  intros Hs. unfold remind_time_of.
  rewrite (tomorrow_not_relative s Hs), (tomorrow_not_today s Hs), Hs.
  destruct (after_blank s) as [time_part|] eqn:Ha; [|discriminate].
  destruct (parse_clock time_part) as [[h m]|] eqn:Hp; [|discriminate].
  destruct (plus now day) as [next|] eqn:Hn; [|discriminate].
  apply plus_inv in Hn as (-> & _).
  intros (-> & Hh & Hm)%replace_hm_inv.
  pose proof (clock_in_day h m Hh Hm) as Hx.
  replace ((now + day) / day) with (now / day + 1)
    by (rewrite <- (Z.mul_1_l day) at 2; rewrite Z.div_add by discriminate; reflexivity).
  rewrite <- Z.add_assoc.
  destruct (day_parts (now / day + 1) _ Hx) as [Hq Hr].
  split; [exact Hq|].
  exists time_part, h, m. split; [reflexivity|]. split; [exact Hp|exact Hr].
Qed.

Lemma relative_request_adds_units now s value u T :
  match_relative s = Some (value, u) ->
  remind_time_of now s = Return T ->
  T = now + value * unit_length u.
Proof.
  intros Hs. unfold remind_time_of. rewrite Hs.
  intros (-> & _)%plus_inv. reflexivity.
Qed.

Lemma minute_floor T : T / minute * minute = T - T mod minute.
Proof. pose proof (Z.div_mod T minute ltac:(discriminate)). lia. Qed.

(** X23: a reminder that [create_reminder] has just stored is shown by
    a scheduler cycle exactly when its stored text can be read, the cycle
    runs 0 to 60 seconds after the minute that the text names, and no
    earlier obligation of the store stops the cycle.  So when the stored
    text reads back as the minute that was written, the reminder is shown
    exactly by the cycles that run in the 60 seconds from the start of
    the minute of the requested instant and are not stopped before it:
    the seconds of the requested instant are dropped, and the
    notification can come up to a minute early.  When the stored text
    cannot be read, no cycle shows the reminder. *)
Theorem created_reminder_fires_from_start_of_minute
    now input f task s T t :
  in_task input = Some task ->
  in_datetime input = Some s ->
  remind_time_of now s = Return T ->
  let c := scheduler_cycle t (snd (create_reminder now input f)) in
  let i := length (load_reminders f) in
  ((exists r, (i, r) ∈ shown c) <->
   (exists m, strptime_minutes (strftime_minutes (T / minute)) = Some m /\
              0 <= t - m * minute <= 60 * second) /\
   unblocked i (load_reminders f)) /\
  (strptime_minutes (strftime_minutes (T / minute)) = Some (T / minute) ->
   ((exists r, (i, r) ∈ shown c) <->
    0 <= t - (T - T mod minute) <= 60 * second /\
    unblocked i (load_reminders f))) /\
  (strptime_minutes (strftime_minutes (T / minute)) = None ->
   forall r, (i, r) ∉ shown c).
Proof.
  intros Htask Hs HT. cbv zeta.
  destruct (create_reminder_cases now input f)
    as [(e & _ & He)|(task' & s' & T' & Htask' & Hs' & HT' & ->)].
  { rewrite (He _ _ Htask Hs) in HT. discriminate. }
  rewrite Hs in Hs'. injection Hs' as <-. rewrite HT in HT'. injection HT' as <-.
  cbn [snd].
  set (new := {| id := Z.of_nat (length (load_reminders f)) + 1;
                 task := task';
                 description := default ""%string (in_description input);
                 datetime := strftime_minutes (T / minute);
                 created_at := strftime_minutes (now / minute);
                 completed := false; notified := Some false |}).
  assert (Hat : forall r,
            (load_reminders f ++ [new]) !! length (load_reminders f) = Some r
            <-> r = new).
  { intros r. rewrite lookup_app_r, Nat.sub_diag by lia. cbn.
    split; congruence. }
  assert (Hb : unblocked (length (load_reminders f)) (load_reminders f ++ [new])
               <-> unblocked (length (load_reminders f)) (load_reminders f)).
  { unfold unblocked. rewrite take_app_length, firstn_all. reflexivity. }
  assert (Hiff : (exists r, (length (load_reminders f), r) ∈
                     shown (scheduler_cycle t (Stored (load_reminders f ++ [new]))))
                 <->
                 (exists m, strptime_minutes (strftime_minutes (T / minute)) = Some m /\
                            0 <= t - m * minute <= 60 * second) /\
                 unblocked (length (load_reminders f)) (load_reminders f)).
  { split.
    - intros [r Hr]. apply shown_iff in Hr as (Hl & Hd & Hu).
      cbn [load_reminders] in Hl, Hu. apply Hat in Hl. subst r.
      apply Hb in Hu. split; [|exact Hu].
      destruct Hd as (_ & _ & Hw). cbn [datetime new] in Hw.
      destruct (strptime_minutes (strftime_minutes (T / minute))) as [m|];
        [|contradiction].
      exists m. split; [reflexivity|]. unfold second. lia.
    - intros [(m & Hm & Hw) Hu]. exists new. apply shown_iff.
      cbn [load_reminders]. split; [apply Hat; reflexivity|].
      split; [|apply Hb; exact Hu].
      split; [reflexivity|]. split; [reflexivity|].
      cbn [datetime new]. rewrite Hm. unfold second in Hw. lia. }
  split; [exact Hiff|]. split.
  - intros Hback. rewrite Hiff, Hback, <- minute_floor. split.
    + intros [(m & [= <-] & Hw) Hu]. auto.
    + intros [Hw Hu]. split; [|exact Hu]. exists (T / minute). auto.
  - intros Hnone r Hr.
    assert (Hex : exists r, (length (load_reminders f), r) ∈
                     shown (scheduler_cycle t (Stored (load_reminders f ++ [new]))))
      by (exists r; exact Hr).
    apply Hiff in Hex as [(m & Hm & _) _]. congruence.
Qed.

Lemma line_unflagged acc r r' :
  unflagged r = unflagged r' -> line acc r = line acc r'.
Proof.
  intros E. unfold line.
  change (id r) with (id (unflagged r)).
  change (task r) with (task (unflagged r)).
  change (datetime r) with (datetime (unflagged r)).
  rewrite E. reflexivity.
Qed.

Lemma foldl_line_unflagged : forall l l' acc,
  map unflagged l = map unflagged l' -> foldl line acc l = foldl line acc l'.
Proof.
  induction l as [|r l IH]; intros [|r' l'] acc E; try discriminate.
  - reflexivity.
  - cbn [map] in E.
    assert (Er : unflagged r = unflagged r') by congruence.
    assert (El : map unflagged l = map unflagged l') by congruence.
    cbn [foldl]. rewrite (line_unflagged acc r r' Er). apply IH, El.
Qed.

Lemma filter_unflagged : forall l l',
  map unflagged l = map unflagged l' ->
  map unflagged (List.filter (fun r => negb (completed r)) l) =
  map unflagged (List.filter (fun r => negb (completed r)) l').
Proof.
  induction l as [|r l IH]; intros [|r' l'] E; try discriminate.
  - reflexivity.
  - cbn [map] in E.
    assert (Er : unflagged r = unflagged r') by congruence.
    assert (El : map unflagged l = map unflagged l') by congruence.
    cbn [List.filter].
    change (completed r) with (completed (unflagged r)). rewrite Er.
    cbn [completed unflagged].
    destruct (completed r'); cbn [negb map]; [|f_equal; [exact Er|]]; apply IH, El.
Qed.

Lemma list_reminders_eq f :
  list_reminders f =
    match List.filter (fun r => negb (completed r)) (load_reminders f) with
    | [] => "📅 No active reminders found."%string
    | active => foldl line ("📅 Active Reminders:" +:+ nl)%string active
    end.
Proof.
  unfold list_reminders. cbv zeta.
  destruct (List.filter _ _); reflexivity.
Qed.

Lemma list_reminders_ext f f' :
  map unflagged (load_reminders f) = map unflagged (load_reminders f') ->
  list_reminders f = list_reminders f'.
Proof.
  intros E%filter_unflagged. rewrite !list_reminders_eq.
  pose proof (foldl_line_unflagged _ _ ("📅 Active Reminders:" +:+ nl)%string E) as Hf.
  destruct (List.filter _ (load_reminders f)), (List.filter _ (load_reminders f'));
    try discriminate; [reflexivity|exact Hf].
Qed.

Lemma scheduler_unflagged clock : forall f,
  map unflagged (load_reminders (fst (reminder_scheduler clock f))) =
  map unflagged (load_reminders f).
Proof.
  induction clock as [|now clock IH]; intros f; [reflexivity|].
  rewrite scheduler_step. cbn [fst]. rewrite IH, cycle_store.
  apply unflagged_swept.
Qed.

(** X24: the scheduler leaves the answer of [list_reminders] as it is,
    however often it runs: a reminder that has been notified stays on
    the list of active reminders. *)
Theorem notified_reminders_stay_listed clock f :
  list_reminders (fst (reminder_scheduler clock f)) = list_reminders f.
Proof. apply list_reminders_ext, scheduler_unflagged. Qed.

(** X25: the scheduler neither adds, removes nor reorders reminders and
    changes no field of a reminder but its [notified] flag; a cycle in
    which no reminder is due does not write the file at all. *)
Theorem scheduler_changes_only_notified_flags clock f :
  map unflagged (load_reminders (fst (reminder_scheduler clock f))) =
    map unflagged (load_reminders f) /\
  forall now, ~ Exists (due now) (load_reminders f) ->
    store (scheduler_cycle now f) = f.
Proof.
  split; [apply scheduler_unflagged|].
  intros now Hnone. rewrite scheduler_cycle_eq. cbv zeta. cbn [store].
  destruct (decide _) as [Hex|_]; [|reflexivity].
  exfalso. exact (Hnone (reached_due_all now _ Hex)).
Qed.

Lemma filter_none_completed (l : list reminder) :
  forallb completed l = true <->
  List.filter (fun r => negb (completed r)) l = [].
Proof.
  induction l as [|r l IH]; cbn [forallb List.filter]; [tauto|].
  destruct (completed r); cbn [negb andb]; [exact IH|].
  split; discriminate.
Qed.

(** X26: after a successful [create_reminder], [list_reminders] answers
    with what it answered before (or with the heading alone, when no
    reminder was active) followed by one line for the new reminder, with
    its id, its task and its instant cut to the minute. *)
Theorem created_reminder_is_listed_last now input f task s T :
  in_task input = Some task ->
  in_datetime input = Some s ->
  remind_time_of now s = Return T ->
  list_reminders (snd (create_reminder now input f)) =
    ((if forallb completed (load_reminders f)
      then "📅 Active Reminders:" +:+ nl else list_reminders f) +:+
     "  " +:+ str_of_int (Z.of_nat (length (load_reminders f)) + 1) +:+ ". " +:+
     task +:+ " - " +:+ strftime_minutes (T / minute) +:+ nl)%string.
Proof.
  intros Htask Hs HT.
  destruct (create_reminder_cases now input f)
    as [(e & _ & He)|(task' & s' & T' & Htask' & Hs' & HT' & ->)].
  { rewrite (He _ _ Htask Hs) in HT. discriminate. }
  rewrite Htask in Htask'. injection Htask' as <-.
  rewrite Hs in Hs'. injection Hs' as <-. rewrite HT in HT'. injection HT' as <-.
  cbn [snd]. rewrite !list_reminders_eq. cbn [load_reminders].
  rewrite List.filter_app. cbn [List.filter completed negb].
  destruct (forallb completed (load_reminders f)) eqn:Hall.
  - apply filter_none_completed in Hall. rewrite Hall. reflexivity.
  - destruct (List.filter _ (load_reminders f)) as [|r active] eqn:Hact.
    + apply filter_none_completed in Hact. congruence.
    + change ((r :: active) ++ ?x) with (r :: (active ++ x)). cbv iota.
      rewrite app_comm_cons, foldl_app. reflexivity.
Qed.

End WithCalendar.

(** *** Instances *)

#[local] Existing Instance sample_calendar.

(** Two reminders created on an unreadable file, with a scheduler cycle
    in between. *)
Lemma reminder_ids_count_from_one_witness :
  map id (load_reminders
            (foldl step Corrupt
               [Create quarter_to (ask "tea" "in 90 seconds");
                Cycle (new_year + 12 * minute);
                Create quarter_to (ask "walk" "today 00:05")])) = [1; 2].
Proof.
  pose proof (reminder_ids_count_from_one
                [Create quarter_to (ask "tea" "in 90 seconds");
                 Cycle (new_year + 12 * minute);
                 Create quarter_to (ask "walk" "today 00:05")]
                Corrupt eq_refl) as Hn.
  unfold numbered in Hn. rewrite Hn. vm_compute. reflexivity.
Defined.

(** At 00:10:45, five past midnight has passed: it is set for the next
    day. *)
Lemma today_request_falls_within_a_day_witness :
  quarter_to < new_year + day + 5 * minute <= quarter_to + day.
Proof.
  destruct (today_request_falls_within_a_day quarter_to "today 00:05"
              (new_year + day + 5 * minute) eq_refl eq_refl) as [Hw _].
  exact Hw.
Defined.

Lemma tomorrow_request_falls_on_next_day_witness :
  (new_year + day + 7 * hour + 30 * minute) / day = quarter_to / day + 1.
Proof.
  destruct (tomorrow_request_falls_on_next_day quarter_to "tomorrow 07:30"
              (new_year + day + 7 * hour + 30 * minute) eq_refl eq_refl)
    as [Hq _].
  exact Hq.
Defined.

(** Asked at 00:10:45 of the first day of 2024 for 90 seconds later,
    that is 00:12:15, and shown by a cycle at 00:12:00. *)
Lemma created_reminder_fires_from_start_of_minute_witness :
  exists r,
    (0%nat, r) ∈
      shown (scheduler_cycle (new_year + 12 * minute)
               (snd (create_reminder quarter_to (ask "tea" "in 90 seconds")
                       Missing))).
Proof.
  destruct (created_reminder_fires_from_start_of_minute quarter_to
              (ask "tea" "in 90 seconds") Missing "tea" "in 90 seconds"
              (quarter_to + 90 * second) (new_year + 12 * minute)
              eq_refl eq_refl eq_refl) as (_ & Hback & _).
  apply Hback.
  - vm_compute. reflexivity.
  - split; [vm_compute; split; discriminate|constructor].
Defined.

(** A cycle at the start of 2024 over a reminder for ten past
    midnight. *)
Lemma scheduler_changes_only_notified_flags_witness :
  store (scheduler_cycle new_year (Stored [call_mum])) = Stored [call_mum].
Proof.
  destruct (scheduler_changes_only_notified_flags [] (Stored [call_mum]))
    as [_ Hquiet].
  apply Hquiet. apply (bool_decide_unpack _). vm_compute. exact I.
Defined.

Lemma created_reminder_is_listed_last_witness :
  list_reminders
    (snd (create_reminder quarter_to (ask "tea" "in 90 seconds") Missing)) =
  ("📅 Active Reminders:" +:+ nl +:+ "  1. tea - 1063994412" +:+ nl)%string.
Proof.
  rewrite (created_reminder_is_listed_last quarter_to
             (ask "tea" "in 90 seconds") Missing "tea" "in 90 seconds"
             (quarter_to + 90 * second) eq_refl eq_refl eq_refl).
  vm_compute. reflexivity.
Defined.

End ReminderToolsProofs.

(** ** Properties of the shell tools *)
Module ShellProofs.
Import ContextSpec StringFacts Shell.

Section WithSystem.
Context `{System}.




End WithSystem.

#[local] Existing Instance echo.


End ShellProofs.

(** ** Properties of answering a command *)
Module AssistantProofs.
Import Context ContextSpec ContextProofs ContextView.
Import Eff Remote RemoteSpec RemoteProofs RemoteView RemoteViewProofs.
Import Assistant.

Section WithRuntime.
Context `{Runtime}.

Lemma last_deque_append {A} (d : list A) (x : A) :
  last (deque_append d x) = Some x.
Proof.
  unfold deque_append. cbv zeta.
  destruct (Nat.ltb_spec maxlen (length (d ++ [x]))) as [Hlt|_].
  - destruct d as [|y d].
    + cbn in Hlt. unfold maxlen in Hlt. lia.
    + cbn [app drop]. apply last_snoc.
  - apply last_snoc.
Qed.

Lemma remember_last now command reply a :
  let a' := remember now command reply a in
  last (history (context_manager a')) = Some (turn_for now command reply a') /\
  last (current_session (context_manager a')) =
    Some (turn_for now command reply a').
Proof.
  cbv zeta. unfold remember, turn_for.
  pose proof (add_turn_history now command reply "general"
                (context_manager a) (context_store a)) as Hh.
  pose proof (add_turn_session now command reply "general"
                (context_manager a) (context_store a)) as Hs.
  pose proof (add_turn_session_id now command reply "general"
                (context_manager a) (context_store a)) as Hi.
  destruct (add_conversation_turn _ _ _ _ _) as [cm w].
  cbn [fst] in Hh, Hs, Hi. cbn [context_manager].
  rewrite Hh, Hs, Hi, last_snoc, last_deque_append. split; reflexivity.
Qed.

(** X28: whatever the agent does, a command whose answer is not the
    notice of an empty result is recorded: the last turn of the history
    and of the window then holds the command and the very text that is
    returned, also when that text reports an exception.  Only an empty
    result of the agent is answered without recording anything. *)
Theorem every_reply_but_the_empty_one_is_remembered
    srv agent now command a :
  let reply := fst (process_voice_command srv agent now command a) in
  let a' := snd (process_voice_command srv agent now command a) in
  (reply = msg_empty /\
   exists remote_status a1, agent remote_status command a1 = (a', Return None)) \/
  (last (history (context_manager a')) = Some (turn_for now command reply a') /\
   last (current_session (context_manager a')) =
     Some (turn_for now command reply a')).
Proof.
  cbv zeta. unfold process_voice_command.
  destruct (remote_status_of srv a) as [remote_status net1].
  match goal with
  | |- context [match ?x with Return _ => _ | Raise _ => _ end] =>
      destruct x as [items|e]
  end.
  - match goal with
    | |- context [agent ?s ?c ?x] => destruct (agent s c x) as [a2 [[response|]|e]] eqn:Ha
    end; cbn [fst snd].
    + right. apply remember_last.
    + left. split; [reflexivity|]. eauto.
    + right. apply remember_last.
  - cbn [fst snd]. right. apply remember_last.
Qed.

Lemma describe_keyed c k e :
  config_key c = Some k -> describe c = Raise e -> e = KeyError "description".
Proof.
  unfold config_key, describe.
  destruct c as [| | | | |d]; cbn [getitem]; try discriminate.
  destruct (assoc "name" d) as [n|]; [|discriminate].
  destruct (hash_key n) as [k'|]; [|discriminate]. intros _.
  destruct (assoc "description" d); [discriminate|].
  intros [= <-]. reflexivity.
Qed.

Lemma loaded_lookup base entries k c :
  tool_configs (loaded base entries) !! k = Some c <->
  last_named k entries = Some c.
Proof.
  unfold loaded, replaced_by. cbn [tool_configs].
  rewrite merge_lookup, lookup_empty.
  destruct (last_named k entries); split; congruence.
Qed.

Lemma listing_fails_on_undescribed base entries tool_name d :
  last_named (KStr tool_name) entries = Some (JDict d) ->
  assoc "description" d = None ->
  list_available_tools (loaded base entries) = Raise (KeyError "description").
Proof.
  intros Hl Hd.
  assert (He : exists e, list_available_tools (loaded base entries) = Raise e).
  { apply (describe_all_fails _ (JDict d) (KeyError "description")).
    - apply list_elem_of_fmap. exists (KStr tool_name, JDict d).
      split; [reflexivity|]. apply elem_of_map_to_list, loaded_lookup, Hl.
    - apply last_named_In in Hl as [_ Hk]. revert Hk.
      unfold config_key, describe. cbn [getitem].
      destruct (assoc "name" d) as [n|]; [|discriminate].
      rewrite Hd. reflexivity. }
  destruct He as [e He]. rewrite He. f_equal.
  apply describe_all_Raise in He as (c & Hin & Hc).
  apply list_elem_of_fmap in Hin as ([k c'] & -> & Hin).
  apply elem_of_map_to_list, loaded_lookup, last_named_In in Hin as [_ Hk].
  exact (describe_keyed _ _ _ Hk Hc).
Qed.

Lemma remote_status_net srv a m :
  remote_tools_manager (g a) = Some m ->
  snd (remote_status_of srv a) =
    net a ++ [GET (base_url m +:+ "/health") [] 5].
Proof.
  intros Hm. unfold remote_status_of. rewrite Hm, health_check_run.
  cbn [after_send self sent].
  destruct (srv _) as [r|e]; [destruct (status_code r =? 200)|]; reflexivity.
Qed.

(** X29: when the server lists an object with a name and no description
    (and does not list that name again), and at least one tool is built
    from the listing, [initialize_remote_tools] reports failure although
    it has stored the manager and the tools.  From then on every command
    is answered with the text for the missing key, and the agent is not
    invoked: reply and environment are the same for every agent, and the
    environment differs from the one before the command only by the
    request of the liveness probe and by the turn that records the
    command with that text. *)
Theorem undescribed_entry_silences_the_agent
    srv base g0 net0 r1 r d entries tool_name bad :
  srv (GET (base +:+ "/health") [] 5) = Return r1 -> status_code r1 = 200 ->
  srv (GET (base +:+ "/gmail/tools/list") [] 10) = Return r ->
  status_code r = 200 ->
  body r = Some (JDict d) ->
  default (JList []) (assoc "tools" d) = JList entries ->
  Forall is_dict entries ->
  last_named (KStr tool_name) entries = Some (JDict bad) ->
  assoc "description" bad = None ->
  tools_of entries <> [] ->
  let started := initialize_remote_tools srv base g0 net0 in
  snd started = false /\
  remote_tools (fst (fst started)) = tools_of entries /\
  forall agent now command cm w net,
    process_voice_command srv agent now command
      {| g := fst (fst started); context_manager := cm;
         context_store := w; net := net |} =
    (msg_error (KeyError "description"),
     remember now command (msg_error (KeyError "description"))
       {| g := fst (fst started); context_manager := cm;
          context_store := w;
          net := net ++ [GET (base +:+ "/health") [] 5] |}).
Proof.
  intros E1 H1 E Hs Hb Ht Hd Hl Hbad Htools. cbv zeta.
  rewrite (initialize_objects srv base g0 net0 r1 r d entries) by assumption.
  rewrite (listing_fails_on_undescribed base entries tool_name bad Hl Hbad).
  cbn [fst snd remote_tools]. split; [reflexivity|]. split; [reflexivity|].
  intros agent now command cm w net. unfold process_voice_command.
  pose proof (remote_status_net srv
                {| g := {| remote_tools_manager := Some (loaded base entries);
                           remote_tools := tools_of entries |};
                   context_manager := cm; context_store := w; net := net |}
                (loaded base entries) eq_refl) as Hnet.
  destruct (remote_status_of srv _) as [remote_status net1].
  cbn [snd Assistant.net base_url loaded] in Hnet. subst net1.
  cbn [g remote_tools_manager remote_tools context_manager context_store].
  destruct (tools_of entries) as [|t ts]; [contradiction|].
  rewrite (listing_fails_on_undescribed base entries tool_name bad Hl Hbad).
  reflexivity.
Qed.

End WithRuntime.

(** *** Instances *)

#[local] Existing Instance sample_runtime.

(** A server that lists [send_email] and the entry without description:
    the command is answered with the text for the missing key, and an
    agent that would clear the session and call a tool leaves no
    trace. *)
Lemma undescribed_entry_silences_the_agent_witness :
  let srv := healthy [send_email; nameless_purpose] in
  let started := initialize_remote_tools srv "http://localhost:8000"
                   no_globals [] in
  let before := {| g := fst (fst started); context_manager := fresh;
                   context_store := no_file; net := [] |} in
  snd started = false /\
  fst (process_voice_command srv parrot "2024-01-01T09:00:00" "hello" before) =
    "Sorry, I encountered an error: 'description'"%string /\
  process_voice_command srv busy "2024-01-01T09:00:00" "hello" before =
    process_voice_command srv parrot "2024-01-01T09:00:00" "hello" before.
Proof.
  intros srv started before.
  destruct (undescribed_entry_silences_the_agent srv "http://localhost:8000"
              no_globals []
              {| status_code := 200; text := "ok"; body := None |}
              {| status_code := 200; text := "";
                 body := Some (JDict [("tools"%string,
                                       JList [send_email; nameless_purpose])]) |}
              [("tools"%string, JList [send_email; nameless_purpose])]
              [send_email; nameless_purpose] "archive"
              [("name", JStr "archive"); ("endpoint", JStr "/gmail/archive");
               ("method", JStr "POST")]%string
              eq_refl eq_refl eq_refl eq_refl eq_refl eq_refl)
    as (Hfalse & _ & Hall).
  - repeat constructor.
  - vm_compute. reflexivity.
  - reflexivity.
  - intros Hx. vm_compute in Hx. discriminate Hx.
  - split; [exact Hfalse|]. fold srv started in Hall. unfold before.
    rewrite !Hall. split; reflexivity.
Defined.

End AssistantProofs.
